(** * Guestbook: posting gate, feed composition and ignore toggle

    A shallow embedding of the server actions [createGuestbookEntry] and
    [getGuestbookEntries] (actions/guestbook) and of the [Home] page's
    [handleUsernameAction], with the properties of the feed and of the
    posting path stated over them.

    Conventions of the embedding:
    - a JS value of type [string | null | undefined] is an [option string];
      [None] stands for both [null] and [undefined];
    - strings are sequences of 8-bit characters, and [toLowerCase] folds the
      letters A-Z only;
    - [page], [limit] and the row count are integers ([Z]); the quotient
      [count / limit] is exact on them and [Math.ceil] is taken of it;
    - the database is passed explicitly: an action takes the tables and
      returns what it yields together with the tables it leaves behind. *)

From Stdlib Require Import List String Ascii ZArith Lia Bool Arith Permutation Sorted.
Import ListNotations.
Open Scope string_scope.
Open Scope list_scope.

(** ** JavaScript operators used by the actions *)

Module Js.

(** Truthiness of a [string | null | undefined]: the empty string, [null]
    and [undefined] are falsy. *)
Definition truthy (v : option string) : bool :=
  match v with
  | Some s => negb (s =? "")
  | None => false
  end.

(** [a || b] *)
Definition or (a b : option string) : option string :=
  if truthy a then a else b.

(** [!!v] *)
Definition notnot (v : option string) : bool := truthy v.

Definition isUpper (c : ascii) : bool :=
  ((65 <=? nat_of_ascii c)%nat && (nat_of_ascii c <=? 90)%nat)%bool.

Definition lowerChar (c : ascii) : ascii :=
  if isUpper c then ascii_of_nat (nat_of_ascii c + 32) else c.

(** [s.toLowerCase()], on strings of ASCII characters: the letters A-Z are
    folded and every other character is kept. JavaScript also folds the
    letters outside ASCII; statements that compare lower-cased strings
    letter by letter are made for ASCII strings ([isAscii]). *)
Fixpoint toLowerCase (s : string) : string :=
  match s with
  | EmptyString => EmptyString
  | String c r => String (lowerChar c) (toLowerCase r)
  end.

(** [v?.toLowerCase()] *)
Definition optToLowerCase (v : option string) : option string :=
  option_map toLowerCase v.

(** [a === b] where each side is a string or [undefined]. *)
Definition strictEq (a b : option string) : bool :=
  match a, b with
  | Some x, Some y => x =? y
  | None, None => true
  | _, _ => false
  end.

(** [xs.join(sep)] *)
Definition join (sep : string) (xs : list string) : string :=
  String.concat sep xs.

(** [xs.includes(u)] *)
Definition includes (xs : list string) (u : string) : bool :=
  existsb (String.eqb u) xs.

(** [Math.ceil(a / b)] for integers [a] and [b > 0]. *)
Definition ceilDiv (a b : Z) : Z := (- ((- a) / b))%Z.

End Js.

Infix "|||" := Js.or (at level 50, left associativity).

(** ** Tables *)

(** Columns of the [user] table read by the feed. *)
Module user.
Record row := mk {
  id : string;
  username : option string;
  displayUsername : option string;
  name : option string
}.
End user.

(** Columns of the [guestbook] table. *)
Module guestbook.
Record row := mk {
  id : string;
  message : string;
  createdAt : Z;
  userId : string;
  replyToId : option string
}.
End guestbook.

Record Db := mkDb {
  guestbookTable : list guestbook.row;
  userTable : list user.row
}.

(** What [auth.api.getSession] yields: [null] or a session whose user
    carries the email-verification flag. *)
Module session.
Record user := mkUser {
  id : string;
  email : string;
  emailVerified : bool
}.
Record t := mk { user_ : user }.
End session.

(** The posting gate as the [Home] page applies it:
    [session.user.emailVerified ? <NewMessageForm/> : <verify/>]. *)
Definition canPost (s : session.t) : bool :=
  session.emailVerified (session.user_ s).

(** ** Content validation: interface *)

Record ValidationOptions := mkOptions {
  allowLinks : bool;
  allowProfanity : bool;
  maxLength : nat;
  minLength : nat
}.

(** The validator's answer. [createGuestbookEntry] reads [errors] only when
    [isValid] is false and [sanitizedContent!] only when it is true. *)
Inductive ValidationResult :=
| Valid (sanitizedContent : string)
| Invalid (errors : list string).

Definition isValid (v : ValidationResult) : bool :=
  match v with Valid _ => true | Invalid _ => false end.

Definition errors (v : ValidationResult) : list string :=
  match v with Valid _ => [] | Invalid es => es end.

(** ** Message Store *)

(** Modelled from the spec: the insert of the Message Store (the table's
    schema and its column defaults are not among the sources). The store is
    append-only; the id and the creation timestamp of a new row are supplied
    by the store, here as [newId] and [now]. *)
Record Defaults := mkDefaults {
  newId : string;
  now : Z
}.

Record InsertValues := mkValues {
  v_message : string;
  v_userId : string;
  v_replyToId : option string
}.

Definition insert (dflt : Defaults) (v : InsertValues) (d : Db) : Db :=
  mkDb (guestbookTable d ++
          [guestbook.mk (newId dflt) (v_message v) (now dflt)
                        (v_userId v) (v_replyToId v)])
       (userTable d).

(** ** Feed entries *)

(** A row of [guestbook LEFT JOIN user]. *)
Record JoinedRow := mkJoined {
  id : string;
  message : string;
  createdAt : Z;
  username : option string;
  displayUsername : option string;
  name : option string;
  userId : string;
  replyToId : option string
}.

(** [{...entry, replyToMessage, replyToUsername}]; a root entry is returned
    as it is, with neither key. *)
Record EntryWithReplyInfo := mkReplyInfo {
  entry : JoinedRow;
  replyToMessage : option string;
  replyToUsername : option string
}.

(** [{...entry, isCreator}] *)
Record EntryWithCreator := mkCreator {
  info : EntryWithReplyInfo;
  isCreator : bool
}.

Record Pagination := mkPagination {
  page : Z;
  limit : Z;
  total : Z;
  totalPages : Z;
  hasNext : bool;
  hasPrev : bool
}.

Record FeedPage := mkFeedPage {
  entries : list EntryWithCreator;
  pagination : Pagination
}.

(** ** createGuestbookEntry *)

(** The two [throw new Error(...)] sites of [createGuestbookEntry]. *)
Inductive PostError :=
| NotSignedIn
| InvalidContent (joined : string).

(** The [message] of the thrown [Error]. *)
Definition errorMessage (e : PostError) : string :=
  match e with
  | NotSignedIn => "You must be signed in to post a message"
  | InvalidContent joined => joined
  end.

(** How a call ends: it throws, or it runs to its end. The function has no
    [return] statement, so the value it resolves to is [undefined], written
    [None]; [Some] would be an entry handed back to the caller. *)
Inductive PostResult :=
| Threw (e : PostError)
| Returned (value : option EntryWithCreator).

Section Posting.

(** [validateMessageContent] of lib/content-validation. *)
Variable validateMessageContent : string -> ValidationOptions -> ValidationResult.

Definition postOptions (replyToId : option string) : ValidationOptions :=
  let maxLength := if Js.truthy replyToId then 1000 else 200 in
  mkOptions false false maxLength 1.

Definition createGuestbookEntry (dflt : Defaults) (session : option session.t)
    (message : string) (replyToId : option string) (d : Db) : PostResult * Db :=
  match session with
  | None => (Threw NotSignedIn, d)
  | Some s =>
      let validation := validateMessageContent message (postOptions replyToId) in
      match validation with
      | Invalid errs => (Threw (InvalidContent (Js.join ", " errs)), d)
      | Valid sanitizedContent =>
          (Returned None,
           insert dflt
             (mkValues sanitizedContent
                       (session.id (session.user_ s))
                       (replyToId ||| None))
             d)
      end
  end.

End Posting.


(** The failure kinds of the posting interface, and the kind each throw site
    of [createGuestbookEntry] stands for. No throw site stands for
    [NotVerified]. *)
Inductive ErrorKind :=
| Unauthenticated
| NotVerified
| ValidationFailed.

Definition kindOf (e : PostError) : ErrorKind :=
  match e with
  | NotSignedIn => Unauthenticated
  | InvalidContent _ => ValidationFailed
  end.

(** The messages an [Error] object hands to its catcher: its one [message]. *)
Definition reportedMessages (e : PostError) : list string := [errorMessage e].

(** ** getGuestbookEntries *)

(** [process.env] as the actions read it. *)
Record Env := mkEnv {
  CREATOR_USERNAME : option string
}.

Definition findUser (d : Db) (uid : string) : option user.row :=
  find (fun u => user.id u =? uid) (userTable d).

(** [obj?.field] for a field that is itself nullable. *)
Definition optField {A : Type} (f : A -> option string) (o : option A) : option string :=
  match o with
  | Some r => f r
  | None => None
  end.

(** One row of [guestbook LEFT JOIN user ON guestbook.userId = user.id]:
    the user's columns are null when no user matches. *)
Definition joinUser (d : Db) (g : guestbook.row) : JoinedRow :=
  let u := findUser d (guestbook.userId g) in
  mkJoined (guestbook.id g) (guestbook.message g) (guestbook.createdAt g)
           (optField user.username u)
           (optField user.displayUsername u)
           (optField user.name u)
           (guestbook.userId g) (guestbook.replyToId g).

(** [ORDER BY createdAt DESC], as an insertion sort that keeps the table's
    order among rows of equal timestamp. The query itself leaves the order
    of such rows to the database, query by query; what is stated across
    several queries is stated for tables of distinct timestamps. *)
Fixpoint insertDesc (x : JoinedRow) (l : list JoinedRow) : list JoinedRow :=
  match l with
  | [] => [x]
  | y :: r =>
      if (createdAt y <=? createdAt x)%Z then x :: y :: r
      else y :: insertDesc x r
  end.

Definition orderByCreatedAtDesc (l : list JoinedRow) : list JoinedRow :=
  fold_right insertDesc [] l.

(** The order of the feed: [a] comes before [b] when it is not older. *)
Definition newerFirst (a b : JoinedRow) : Prop := (createdAt b <= createdAt a)%Z.

(** [select ... from guestbook leftJoin user orderBy desc(createdAt)
    limit(limit) offset(offset)] *)
Definition selectEntries (d : Db) (limit offset : Z) : list JoinedRow :=
  firstn (Z.to_nat limit)
    (skipn (Z.to_nat offset)
       (orderByCreatedAtDesc (map (joinUser d) (guestbookTable d)))).

(** [select ... from guestbook leftJoin user where guestbook.id = rid
    limit(1)], then [[0]]. *)
Definition selectOriginal (d : Db) (rid : string) : option JoinedRow :=
  option_map (joinUser d)
    (find (fun g => guestbook.id g =? rid) (guestbookTable d)).

(** [displayUsername || username || name] *)
Definition authorLabel (e : JoinedRow) : option string :=
  displayUsername e ||| username e ||| name e.

Definition withReplyInfo (d : Db) (e : JoinedRow) : EntryWithReplyInfo :=
  if Js.truthy (replyToId e) then
    let originalMessage :=
      match replyToId e with
      | Some rid => selectOriginal d rid
      | None => None
      end in
    mkReplyInfo e
      (option_map message originalMessage)
      (optField displayUsername originalMessage
         ||| optField username originalMessage
         ||| optField name originalMessage)
  else mkReplyInfo e None None.

Definition withCreator (creatorUsername : option string) (e : EntryWithReplyInfo)
    : EntryWithCreator :=
  let entryUsername := Js.optToLowerCase (authorLabel (entry e)) in
  mkCreator e (Js.notnot creatorUsername && Js.strictEq entryUsername creatorUsername).

(** [select count( * ) from guestbook] *)
Definition totalCount (d : Db) : Z := Z.of_nat (List.length (guestbookTable d)).

Definition getGuestbookEntries (env : Env) (page limit : Z) (d : Db) : FeedPage :=
  let offset := ((page - 1) * limit)%Z in
  let creatorUsername := Js.optToLowerCase (CREATOR_USERNAME env) in
  let entries := selectEntries d limit offset in
  let entriesWithReplyInfo := map (withReplyInfo d) entries in
  let entriesWithCreator := map (withCreator creatorUsername) entriesWithReplyInfo in
  let count := totalCount d in
  mkFeedPage entriesWithCreator
    (mkPagination page limit count
       (Js.ceilDiv count limit)
       (page <? Js.ceilDiv count limit)%Z
       (1 <? page)%Z).

(** The declared defaults, [page = 1] and [limit = 50], for a caller that
    leaves an argument out. *)
Definition getGuestbookEntriesDefaulted (env : Env) (page limit : option Z) (d : Db)
    : FeedPage :=
  getGuestbookEntries env
    (match page with Some p => p | None => 1%Z end)
    (match limit with Some l => l | None => 50%Z end)
    d.

(** ** The Home page *)

(** [entry.displayUsername || entry.username || entry.name || ''] *)
Definition homeUsername (e : JoinedRow) : string :=
  match authorLabel e ||| Some "" with
  | Some s => s
  | None => ""
  end.

(** The page's own highlight test, [username === creatorUsername], with
    [creatorUsername = process.env.CREATOR_USERNAME]. *)
Definition homeIsCreator (env : Env) (e : JoinedRow) : bool :=
  Js.strictEq (Some (homeUsername e)) (CREATOR_USERNAME env).

Record Preferences := mkPreferences {
  ignoredUsers : list string
}.

Inductive UsernameAction :=
| ignore
| viewOnly.

(** What [handleUsernameAction] asks of its collaborators: one call of the
    [updateIgnoredUsers] mutation with the list to store, or a navigation. *)
Inductive HomeEffect :=
| UpdateIgnoredUsers (newIgnored : list string)
| RouterPush (path : string).

Definition handleUsernameAction (preferences : option Preferences)
    (username : string) (action : UsernameAction) : HomeEffect :=
  match action with
  | ignore =>
      let currentIgnored :=
        match preferences with
        | Some p => ignoredUsers p
        | None => []
        end in
      let isCurrentlyIgnored := Js.includes currentIgnored username in
      let newIgnored :=
        if isCurrentlyIgnored
        then filter (fun u => negb (u =? username)) currentIgnored
        else currentIgnored ++ [username] in
      UpdateIgnoredUsers newIgnored
  | viewOnly => RouterPush ("/user/" ++ username)
  end.

(** ** Content Validator *)

(** Modelled from the spec: the reason codes of the Content Validator
    ([validateMessageContent] of lib/content-validation is not among the
    sources). One code per rule: the two length rules and the two content
    rules. *)
Inductive Reason :=
| TooShort
| TooLong
| LinksNotAllowed
| ProfanityNotAllowed.

Definition reasonCode (r : Reason) : string :=
  match r with
  | TooShort => "too_short"
  | TooLong => "too_long"
  | LinksNotAllowed => "links_not_allowed"
  | ProfanityNotAllowed => "profanity_not_allowed"
  end.

Definition isLengthReason (code : string) : bool :=
  ((code =? reasonCode TooShort) || (code =? reasonCode TooLong))%bool.

Definition isSpace (c : ascii) : bool :=
  let n := nat_of_ascii c in
  ((n =? 32) || ((9 <=? n) && (n <=? 13)))%nat%bool.

Fixpoint trimStart (s : string) : string :=
  match s with
  | EmptyString => EmptyString
  | String c r => if isSpace c then trimStart r else s
  end.

Fixpoint trimEnd (s : string) : string :=
  match s with
  | EmptyString => EmptyString
  | String c r =>
      let r' := trimEnd r in
      if (isSpace c && (r' =? ""))%bool then EmptyString else String c r'
  end.

(** [s.trim()], for the ASCII white space (space, tab, line feed, vertical
    tab, form feed, carriage return). *)
Definition trim (s : string) : string := trimEnd (trimStart s).

Section ContentValidator.

(** How a link and a profane word are recognised is left open by the spec:
    both tests are parameters. *)
Variable hasLink : string -> bool.
Variable hasProfanity : string -> bool.

(** Modelled from the spec: the rules the Content Validator applies to the
    trimmed text, in a fixed order. Text that is empty after trimming fails
    the minimum length whatever the configured minimum. *)
Definition violations (text : string) (o : ValidationOptions) : list Reason :=
  let t := trim text in
  let n := String.length t in
  (if ((n =? 0) || (n <? minLength o))%nat%bool then [TooShort] else []) ++
  (if (maxLength o <? n)%nat then [TooLong] else []) ++
  (if (negb (allowLinks o) && hasLink t)%bool then [LinksNotAllowed] else []) ++
  (if (negb (allowProfanity o) && hasProfanity t)%bool then [ProfanityNotAllowed] else []).

(** Modelled from the spec: [validate(text, constraints)], accepted with the
    sanitized (trimmed) text, or rejected with the codes of all violated
    rules. *)
Definition validate (text : string) (o : ValidationOptions) : ValidationResult :=
  match violations text o with
  | [] => Valid (trim text)
  | rs => Invalid (map reasonCode rs)
  end.

End ContentValidator.

(** [contains needle s]: [needle] occurs in [s]. *)
Fixpoint contains (needle s : string) : bool :=
  (String.prefix needle s ||
   match s with
   | EmptyString => false
   | String _ r => contains needle r
   end)%bool.

(** A validator instance for the worked examples: a link is an occurrence
    of [http://], a profane word an occurrence of [darn]. *)
Definition exampleValidate : string -> ValidationOptions -> ValidationResult :=
  validate (contains "http://") (contains "darn").

Fixpoint repeatChar (c : ascii) (n : nat) : string :=
  match n with
  | O => EmptyString
  | S k => String c (repeatChar c k)
  end.

(** ** Predicates on the tables *)

(** The referential invariant: a reply's [replyToId] is the id of a row of
    the table. *)
Definition hasMessage (d : Db) (rid : string) : bool :=
  existsb (fun p => guestbook.id p =? rid) (guestbookTable d).

Definition referentialIntegrity (d : Db) : bool :=
  forallb (fun m =>
             match guestbook.replyToId m with
             | Some rid => hasMessage d rid
             | None => true
             end)
          (guestbookTable d).

(** What the schema and [createGuestbookEntry] guarantee of the table: ids
    are a key, and a stored [replyToId] is [null] or a non-empty id. *)
Definition keyed (d : Db) : Prop :=
  NoDup (map guestbook.id (guestbookTable d)).

Definition replyIdsTruthy (d : Db) : bool :=
  forallb (fun m =>
             match guestbook.replyToId m with
             | Some rid => negb (rid =? "")
             | None => true
             end)
          (guestbookTable d).

(** The tables the posting action can produce: it starts from an empty
    [guestbook] table and any users, and each call is given an id by the
    store that no stored row has. *)
Inductive reachable
    (validateMessageContent : string -> ValidationOptions -> ValidationResult)
    : Db -> Prop :=
| reachable_init (users : list user.row) :
    reachable validateMessageContent (mkDb [] users)
| reachable_post (d : Db) (dflt : Defaults) (session : option session.t)
    (message : string) (replyToId : option string) :
    reachable validateMessageContent d ->
    hasMessage d (newId dflt) = false ->
    reachable validateMessageContent
      (snd (createGuestbookEntry validateMessageContent dflt session
              message replyToId d)).

(** ** Case-insensitive comparison *)

(** Two characters are the same letter when they are equal or are the upper
    and the lower case of one letter A-Z. *)
Definition sameLetter (a b : ascii) : bool :=
  ((a =? b)%char
   || (Js.isUpper a && (nat_of_ascii b =? nat_of_ascii a + 32)%nat)
   || (Js.isUpper b && (nat_of_ascii a =? nat_of_ascii b + 32)%nat))%bool.

Fixpoint equalsIgnoreCase (a b : string) : bool :=
  match a, b with
  | EmptyString, EmptyString => true
  | String x r, String y q => (sameLetter x y && equalsIgnoreCase r q)%bool
  | _, _ => false
  end.

(** ** Worked inputs *)

Definition alice : session.t :=
  session.mk (session.mkUser "u-alice" "alice@example.com" true).

Definition mallory : session.t :=
  session.mk (session.mkUser "u-mallory" "mallory@example.com" false).

Definition emptyDb : Db := mkDb [] [].

Definition sampleDb : Db :=
  mkDb [ guestbook.mk "m1" "first" 10 "u-alice" None;
         guestbook.mk "m2" "second" 20 "u-bob" (Some "m1");
         guestbook.mk "m3" "third" 30 "u-carol" (Some "gone");
         guestbook.mk "m4" "fourth" 30 "u-nobody" None;
         guestbook.mk "m5" "fifth" 5 "u-alice" (Some "m4") ]
       [ user.mk "u-alice" (Some "alice") (Some "Alice") (Some "Alice A.");
         user.mk "u-bob" (Some "bob") None (Some "Bob B.");
         user.mk "u-carol" None (Some "") (Some "Carol") ].

Definition seedDb : Db :=
  mkDb [ guestbook.mk "m1" "first" 10 "u-alice" None ]
       [ user.mk "u-alice" (Some "alice") (Some "Alice") (Some "Alice A.") ].

Definition longText : string := repeatChar "a" 250.

Definition storeDefaults : Defaults := mkDefaults "n1" 99.

(** ** getUserPosts *)

(** [ORDER BY key DESC] for any row type, with the same treatment of equal
    keys as [insertDesc]. *)
Fixpoint insertDescBy {A : Type} (key : A -> Z) (x : A) (l : list A) : list A :=
  match l with
  | [] => [x]
  | y :: r =>
      if (key y <=? key x)%Z then x :: y :: r
      else y :: insertDescBy key x r
  end.

Definition orderByDesc {A : Type} (key : A -> Z) (l : list A) : list A :=
  fold_right (insertDescBy key) [] l.

(** The columns [getUserPosts] selects: those of the feed without
    [replyToId]. *)
Module userPosts.
Record row := mkRow {
  id : string;
  message : string;
  createdAt : Z;
  username : option string;
  displayUsername : option string;
  name : option string;
  userId : string
}.
(** [{...entry, isCreator}] *)
Record entry := mkEntry {
  fields : row;
  isCreator : bool
}.
End userPosts.

Record UserPostsPage := mkUserPostsPage {
  userEntries : list userPosts.entry;
  userPagination : Pagination
}.

Definition joinUserPost (d : Db) (g : guestbook.row) : userPosts.row :=
  let u := findUser d (guestbook.userId g) in
  userPosts.mkRow (guestbook.id g) (guestbook.message g) (guestbook.createdAt g)
                  (optField user.username u)
                  (optField user.displayUsername u)
                  (optField user.name u)
                  (guestbook.userId g).

(** [where(eq(guestbook.userId, userId))] *)
Definition postsOf (d : Db) (userId : string) : list guestbook.row :=
  filter (fun g => guestbook.userId g =? userId) (guestbookTable d).

Definition selectUserPosts (d : Db) (userId : string) (limit offset : Z)
    : list userPosts.row :=
  firstn (Z.to_nat limit)
    (skipn (Z.to_nat offset)
       (orderByDesc userPosts.createdAt (map (joinUserPost d) (postsOf d userId)))).

Definition userPostLabel (e : userPosts.row) : option string :=
  userPosts.displayUsername e ||| userPosts.username e ||| userPosts.name e.

Definition userPostWithCreator (creatorUsername : option string) (e : userPosts.row)
    : userPosts.entry :=
  let entryUsername := Js.optToLowerCase (userPostLabel e) in
  userPosts.mkEntry e
    (Js.notnot creatorUsername && Js.strictEq entryUsername creatorUsername).

Definition getUserPosts (env : Env) (userId : string) (page limit : Z) (d : Db)
    : UserPostsPage :=
  let offset := ((page - 1) * limit)%Z in
  let creatorUsername := Js.optToLowerCase (CREATOR_USERNAME env) in
  let entries := selectUserPosts d userId limit offset in
  let entriesWithCreator := map (userPostWithCreator creatorUsername) entries in
  let count := Z.of_nat (List.length (postsOf d userId)) in
  mkUserPostsPage entriesWithCreator
    (mkPagination page limit count
       (Js.ceilDiv count limit)
       (page <? Js.ceilDiv count limit)%Z
       (1 <? page)%Z).

(** ** The Home page: ignore filter and page buttons *)

(** [filteredEntries]: with [showIgnored] every entry, otherwise the entries
    whose label is empty or not in the ignore list. *)
Definition filteredEntries (showIgnored : bool) (ignoredUsers : list string)
    (entries : list EntryWithCreator) : list EntryWithCreator :=
  if showIgnored then entries
  else filter (fun e =>
                 let username := homeUsername (entry (info e)) in
                 (negb (Js.truthy (Some username))
                  || negb (Js.includes ignoredUsers username))%bool)
              entries.

(** [preferences?.ignoredUsers || []] *)
Definition currentIgnoredUsers (preferences : option Preferences) : list string :=
  match preferences with
  | Some p => ignoredUsers p
  | None => []
  end.

(** [Array.from({ length: totalPages }, (_, i) => i + 1)] *)
Definition pageNumbers (totalPages : Z) : list Z :=
  map (fun i => (Z.of_nat i + 1)%Z) (seq 0 (Z.to_nat totalPages)).

(** The page buttons shown: the first page, the last page, and the pages
    within one of the current page. *)
Definition visiblePages (totalPages currentPage : Z) : list Z :=
  filter (fun page =>
            ((page =? 1)%Z
             || (page =? totalPages)%Z
             || (Z.abs (page - currentPage) <=? 1)%Z)%bool)
         (pageNumbers totalPages).

(** [index > 0 && visiblePages[index - 1] !== page - 1]: whether the dots
    are drawn before the button at [index]. *)
Definition ellipsisBefore (visible : list Z) (index : nat) (page : Z) : bool :=
  ((0 <? index)%nat
   && negb (match nth_error visible (index - 1) with
            | Some prev => (prev =? page - 1)%Z
            | None => false
            end))%bool.

(** ** The Home page: email verification *)

Record OtpState := mkOtpState {
  showOtpInput : bool;
  otpSentDuringSignup : bool;
  otp : string;
  otpLoading : bool;
  otpError : string
}.

(** What a [catch (err)] receives: an [Error] with its message, or some
    other value. *)
Inductive Thrown :=
| ThrownError (message : string)
| ThrownOther.

(** [err instanceof Error ? err.message : fallback] *)
Definition messageOr (fallback : string) (err : Thrown) : string :=
  match err with
  | ThrownError m => m
  | ThrownOther => fallback
  end.

(** How an awaited call of the auth client ends. *)
Inductive CallResult :=
| Resolved
| Rejected (err : Thrown).

Inductive OtpEffect :=
| SendVerificationOtp (email : string)
| VerifyEmail (email otp : string)
| RouterRefresh.

(** [session?.user.email] *)
Definition sessionEmail (session : option session.t) : option string :=
  option_map (fun s => session.email (session.user_ s)) session.

(** The effect hook run when the session changes. *)
Definition onSessionChange (session : option session.t) (st : OtpState) : OtpState :=
  match session with
  | Some s =>
      if negb (session.emailVerified (session.user_ s))
      then mkOtpState true true (otp st) (otpLoading st) (otpError st)
      else st
  | None => st
  end.

(** [handleResendOtp], with the outcome of the awaited
    [sendVerificationOtp]: the state it leaves and the calls it made. *)
Definition handleResendOtp (session : option session.t) (outcome : CallResult)
    (st : OtpState) : OtpState * list OtpEffect :=
  if negb (Js.truthy (sessionEmail session)) then (st, [])
  else
    let email := match sessionEmail session with Some e => e | None => "" end in
    match outcome with
    | Resolved =>
        (mkOtpState true false (otp st) false "", [SendVerificationOtp email])
    | Rejected err =>
        (mkOtpState (showOtpInput st) (otpSentDuringSignup st) (otp st) false
                    (messageOr "Failed to send OTP" err),
         [SendVerificationOtp email])
    end.

(** [handleVerifyOtp], with the outcome of the awaited [verifyEmail]. *)
Definition handleVerifyOtp (session : option session.t) (outcome : CallResult)
    (st : OtpState) : OtpState * list OtpEffect :=
  if (negb (Js.truthy (sessionEmail session))
      || negb (Js.truthy (Some (trim (otp st)))))%bool
  then (st, [])
  else
    let email := match sessionEmail session with Some e => e | None => "" end in
    match outcome with
    | Resolved =>
        (mkOtpState false false "" false "",
         [VerifyEmail email (trim (otp st)); RouterRefresh])
    | Rejected err =>
        (mkOtpState (showOtpInput st) (otpSentDuringSignup st) (otp st) false
                    (messageOr "Invalid verification code" err),
         [VerifyEmail email (trim (otp st))])
    end.

(** The line under "Please verify your email". *)
Definition verificationHint (st : OtpState) : string :=
  if showOtpInput st then
    if otpSentDuringSignup st
    then "We sent a verification code to your email during signup"
    else "Enter the verification code from your email"
  else "Verify your email address to start posting messages".

(** ** changePassword *)

(** Columns of the [account] table that [changePassword] reads and
    writes. *)
Module account.
Record row := mk {
  userId : string;
  password : option string;
  updatedAt : Z
}.
End account.

(** The three [throw new Error(...)] sites of [changePassword]. *)
Inductive PasswordError :=
| PasswordNotSignedIn
| NoPasswordFound
| CurrentPasswordIncorrect.

Definition passwordErrorMessage (e : PasswordError) : string :=
  match e with
  | PasswordNotSignedIn => "You must be signed in to change your password"
  | NoPasswordFound => "No password found for this account"
  | CurrentPasswordIncorrect => "Current password is incorrect"
  end.

(** A call throws, or returns [{ success: true }]. *)
Inductive PasswordResult :=
| PasswordThrew (e : PasswordError)
| PasswordChanged.

Section ChangePassword.

(** [bcrypt.compare(plain, hashed)] and [bcrypt.hash(plain, rounds)]. *)
Variable compare : string -> string -> bool.
Variable hash : string -> nat -> string.

(** [update(account).set({password, updatedAt}).where(eq(account.userId, uid))] *)
Definition updatePassword (uid hashed : string) (now : Z) (accounts : list account.row)
    : list account.row :=
  map (fun a =>
         if account.userId a =? uid
         then account.mk (account.userId a) (Some hashed) now
         else a)
      accounts.

Definition changePassword (now : Z) (session : option session.t)
    (currentPassword newPassword : string) (accounts : list account.row)
    : PasswordResult * list account.row :=
  match session with
  | None => (PasswordThrew PasswordNotSignedIn, accounts)
  | Some s =>
      let uid := session.id (session.user_ s) in
      let userAccount := find (fun a => account.userId a =? uid) accounts in
      match userAccount with
      | None => (PasswordThrew NoPasswordFound, accounts)
      | Some first =>
          if negb (Js.truthy (account.password first))
          then (PasswordThrew NoPasswordFound, accounts)
          else
            let stored :=
              match account.password first with Some h => h | None => "" end in
            let isCurrentPasswordValid := compare currentPassword stored in
            if negb isCurrentPasswordValid
            then (PasswordThrew CurrentPasswordIncorrect, accounts)
            else
              let hashedNewPassword := hash newPassword 12 in
              (PasswordChanged, updatePassword uid hashedNewPassword now accounts)
      end
  end.

End ChangePassword.

(** ** More worked inputs *)

Definition unlabelledRow : JoinedRow :=
  mkJoined "m9" "hi" 1 None None None "u-nobody" None.

Definition sampleAccounts : list account.row :=
  [ account.mk "u-bob" (Some "hash:bobpw") 1;
    account.mk "u-alice" (Some "hash:old") 2;
    account.mk "u-alice" None 3 ].

(** A stand-in for bcrypt in the worked cases: the hash of [p] is [hash:p]. *)
Definition toyHash (plain : string) (rounds : nat) : string := "hash:" ++ plain.

Definition toyCompare (plain hashed : string) : bool := hashed =? toyHash plain 12.

(** ** The sign-in and sign-up form *)

Inductive AuthStep :=
| stepAuth
| stepVerify.

Module authForm.
Record state := mk {
  isLogin : bool;
  email : string;
  username : string;
  password : string;
  otp : string;
  isLoading : bool;
  error : string;
  usernameError : string;
  step : AuthStep;
  pendingVerification : bool
}.
End authForm.

(** The answer of [validateUsername] (lib/username-validation), as
    [handleSubmit] reads it: [sanitized!] when valid, [error!] when not. *)
Inductive UsernameValidation :=
| UsernameValid (sanitized : string)
| UsernameInvalid (error : string).

(** The calls [handleSubmit] makes, in order. *)
Inductive AuthEffect :=
| SignIn (email password : string)
| SignUp (email password name username : string)
| VerifyEmailOtp (email otp : string)
| OnSuccess.

Section AuthForm.

Variable validateUsername : string -> UsernameValidation.

(** What the [catch] and [finally] blocks leave after a call that threw. *)
Definition authFailed (st : authForm.state) (err : Thrown) : authForm.state :=
  authForm.mk (authForm.isLogin st) (authForm.email st) (authForm.username st)
              (authForm.password st) (authForm.otp st) false
              (messageOr "An error occurred" err) ""
              (authForm.step st) (authForm.pendingVerification st).

(** What is left after a call that went through without changing the
    step. *)
Definition authSettled (st : authForm.state) : authForm.state :=
  authForm.mk (authForm.isLogin st) (authForm.email st) (authForm.username st)
              (authForm.password st) (authForm.otp st) false "" ""
              (authForm.step st) (authForm.pendingVerification st).

(** [handleSubmit], with the outcome of the one call it awaits. *)
Definition handleSubmit (outcome : CallResult) (st : authForm.state)
    : authForm.state * list AuthEffect :=
  match authForm.step st with
  | stepAuth =>
      if authForm.isLogin st then
        match outcome with
        | Resolved =>
            (authSettled st,
             [SignIn (authForm.email st) (authForm.password st); OnSuccess])
        | Rejected err =>
            (authFailed st err,
             [SignIn (authForm.email st) (authForm.password st)])
        end
      else
        match validateUsername (authForm.username st) with
        | UsernameInvalid error =>
            (authForm.mk (authForm.isLogin st) (authForm.email st)
                         (authForm.username st) (authForm.password st)
                         (authForm.otp st) false "" error
                         (authForm.step st) (authForm.pendingVerification st),
             [])
        | UsernameValid sanitized =>
            match outcome with
            | Resolved =>
                (authForm.mk (authForm.isLogin st) (authForm.email st)
                             (authForm.username st) (authForm.password st)
                             (authForm.otp st) false "" ""
                             stepVerify true,
                 [SignUp (authForm.email st) (authForm.password st)
                         sanitized sanitized])
            | Rejected err =>
                (authFailed st err,
                 [SignUp (authForm.email st) (authForm.password st)
                         sanitized sanitized])
            end
        end
  | stepVerify =>
      match outcome with
      | Resolved =>
          (authSettled st,
           [VerifyEmailOtp (authForm.email st) (authForm.otp st); OnSuccess])
      | Rejected err =>
          (authFailed st err,
           [VerifyEmailOtp (authForm.email st) (authForm.otp st)])
      end
  end.

End AuthForm.

(** A username rule for the worked cases: at least three characters. *)
Definition toyValidateUsername (name : string) : UsernameValidation :=
  if (String.length (trim name) <? 3)%nat
  then UsernameInvalid "Username must be at least 3 characters"
  else UsernameValid (trim name).

Definition signupForm : authForm.state :=
  authForm.mk false "dan@example.com" " dan " "pw" "" false "" "" stepAuth false.

(** ** Definitions for the page buttons and for ASCII labels *)

(** The buttons the Home page draws: the block is rendered only when
    [pagination && pagination.totalPages > 1]. *)
Definition pageButtons (pagination : option Pagination) (currentPage : Z) : list Z :=
  match pagination with
  | Some p =>
      if (1 <? totalPages p)%Z then visiblePages (totalPages p) currentPage
      else []
  | None => []
  end.

(** Strings made of ASCII characters only. *)
Definition isAscii (s : string) : bool :=
  forallb (fun c => (nat_of_ascii c <? 128)%nat) (list_ascii_of_string s).

(** The label of a row of the [user] table:
    [displayUsername || username || name]. *)
Definition userLabel (u : user.row) : option string :=
  user.displayUsername u ||| user.username u ||| user.name u.

(** A table whose rows all have different timestamps. *)
Definition timelineDb : Db :=
  mkDb [ guestbook.mk "t1" "one" 10 "u-alice" None;
         guestbook.mk "t2" "two" 40 "u-bob" (Some "t1");
         guestbook.mk "t3" "three" 20 "u-alice" None;
         guestbook.mk "t4" "four" 50 "u-carol" (Some "t2");
         guestbook.mk "t5" "five" 30 "u-bob" None ]
       [ user.mk "u-alice" (Some "alice") (Some "Alice") (Some "Alice A.");
         user.mk "u-bob" (Some "bob") None (Some "Bob B.") ].

(** * Properties *)

(** ** Strings *)

Lemma prefix_app (n q : string) : String.prefix n (n ++ q) = true.
Proof.
  induction n as [|c n IH]; simpl.
  - destruct q; reflexivity.
  - destruct (ascii_dec c c) as [_|ne]; [exact IH | now contradiction ne].
Qed.

Lemma prefix_refl (n : string) : String.prefix n n = true.
Proof.
  induction n as [|c n IH]; simpl; [reflexivity|].
  destruct (ascii_dec c c) as [_|ne]; [exact IH | now contradiction ne].
Qed.

Lemma contains_here (n s : string) :
  String.prefix n s = true -> contains n s = true.
Proof.
  intros H. destruct s; simpl in *; rewrite H; reflexivity.
Qed.

Lemma contains_skip (n p s : string) :
  contains n s = true -> contains n (p ++ s) = true.
Proof.
  intros H. induction p as [|c p IH]; simpl; [exact H|].
  fold (contains n (p ++ s)). rewrite IH. apply orb_true_r.
Qed.

(** Every joined element can be read in the joined string. *)
Lemma contains_join (sep e : string) (xs : list string) :
  In e xs -> contains e (Js.join sep xs) = true.
Proof.
  unfold Js.join. induction xs as [|x xs IH]; intros Hin; [contradiction|].
  destruct xs as [|y ys].
  - destruct Hin as [->|[]]. simpl. apply contains_here, prefix_refl.
  - change (String.concat sep (x :: y :: ys))
      with (x ++ sep ++ String.concat sep (y :: ys))%string.
    destruct Hin as [->|Hin].
    + apply contains_here, prefix_app.
    + apply contains_skip, contains_skip, IH, Hin.
Qed.

(** [join] forgets where one element ends and the next begins. *)
Example join_not_injective :
  Js.join ", " ["a, b"] = Js.join ", " ["a"; "b"].
Proof. reflexivity. Qed.

Lemma truthy_Some (s : string) : Js.truthy (Some s) = true <-> s <> "".
Proof.
  simpl. destruct (String.eqb_spec s ""); simpl; split; congruence.
Qed.

(** ** The table under [insert] *)

Lemma hasMessage_spec (d : Db) (rid : string) :
  hasMessage d rid = true <->
  exists p, In p (guestbookTable d) /\ guestbook.id p = rid.
Proof.
  unfold hasMessage. rewrite existsb_exists. split; intros [p [Hin H]]; exists p.
  - split; [exact Hin | now apply String.eqb_eq].
  - split; [exact Hin | now apply String.eqb_eq].
Qed.

Lemma hasMessage_insert (dflt : Defaults) (v : InsertValues) (d : Db) (rid : string) :
  hasMessage (insert dflt v d) rid = (hasMessage d rid || (newId dflt =? rid))%bool.
Proof.
  unfold hasMessage, insert; simpl. rewrite existsb_app. simpl.
  now rewrite orb_false_r.
Qed.

Lemma referentialIntegrity_insert (dflt : Defaults) (v : InsertValues) (d : Db) :
  referentialIntegrity d = true ->
  referentialIntegrity (insert dflt v d) =
  match v_replyToId v with
  | Some rid => (hasMessage d rid || (newId dflt =? rid))%bool
  | None => true
  end.
Proof.
  intros Hd. unfold referentialIntegrity.
  change (guestbookTable (insert dflt v d))
    with (guestbookTable d ++
            [guestbook.mk (newId dflt) (v_message v) (now dflt)
                          (v_userId v) (v_replyToId v)]).
  rewrite forallb_app. simpl (forallb _ [_]). rewrite andb_true_r.
  assert (Hold : forallb
            (fun m => match guestbook.replyToId m with
                      | Some rid => hasMessage (insert dflt v d) rid
                      | None => true
                      end) (guestbookTable d) = true).
  { unfold referentialIntegrity in Hd. rewrite forallb_forall in *.
    intros m Hm. specialize (Hd m Hm).
    destruct (guestbook.replyToId m) as [rid|]; [|reflexivity].
    rewrite hasMessage_insert, Hd. reflexivity. }
  rewrite Hold. simpl.
  destruct (v_replyToId v) as [rid|]; [|reflexivity].
  apply hasMessage_insert.
Qed.

(** ** Posting *)

Section PostingFacts.

Variable validateMessageContent : string -> ValidationOptions -> ValidationResult.

Lemma post_without_session (dflt : Defaults) (message : string)
    (replyToId : option string) (d : Db) :
  createGuestbookEntry validateMessageContent dflt None message replyToId d
  = (Threw NotSignedIn, d).
Proof. reflexivity. Qed.

(** A call that throws leaves the tables as they were. *)
Lemma post_threw_keeps_db (dflt : Defaults) (session : option session.t)
    (message : string) (replyToId : option string) (d : Db) (e : PostError) :
  fst (createGuestbookEntry validateMessageContent dflt session message
         replyToId d) = Threw e ->
  snd (createGuestbookEntry validateMessageContent dflt session message
         replyToId d) = d.
Proof.
  unfold createGuestbookEntry. destruct session as [s|]; [|reflexivity].
  destruct (validateMessageContent message (postOptions replyToId));
    simpl; [discriminate | reflexivity].
Qed.

(** No path of [createGuestbookEntry] ends in a [NotVerified] failure. *)
Lemma post_never_NotVerified (dflt : Defaults) (session : option session.t)
    (message : string) (replyToId : option string) (d : Db) (e : PostError) :
  fst (createGuestbookEntry validateMessageContent dflt session message
         replyToId d) = Threw e ->
  kindOf e <> NotVerified.
Proof.
  unfold createGuestbookEntry. destruct session as [s|].
  - destruct (validateMessageContent message (postOptions replyToId)); simpl;
      intros H; inversion H; discriminate.
  - simpl. intros H; inversion H; discriminate.
Qed.

(** The verification flag of the session is not read: two sessions of the
    same user id are treated alike. *)
Lemma post_ignores_emailVerified (dflt : Defaults) (uid mail : string) (v w : bool)
    (message : string) (replyToId : option string) (d : Db) :
  createGuestbookEntry validateMessageContent dflt
    (Some (session.mk (session.mkUser uid mail v))) message replyToId d =
  createGuestbookEntry validateMessageContent dflt
    (Some (session.mk (session.mkUser uid mail w))) message replyToId d.
Proof. reflexivity. Qed.

(** C1 (as the code has it): a signed-in user whose email is not verified
    ([canPost] false) and whose text the validator accepts is not stopped:
    the call runs to its end and the table gains the new row. *)
Theorem unverified_session_post_is_stored (dflt : Defaults) (s : session.t)
    (message : string) (replyToId : option string) (d : Db) (sanitized : string) :
  canPost s = false ->
  validateMessageContent message (postOptions replyToId) = Valid sanitized ->
  createGuestbookEntry validateMessageContent dflt (Some s) message replyToId d =
    (Returned None,
     insert dflt (mkValues sanitized (session.id (session.user_ s))
                           (replyToId ||| None)) d)
  /\ List.length
       (guestbookTable
          (snd (createGuestbookEntry validateMessageContent dflt (Some s)
                  message replyToId d)))
     = S (List.length (guestbookTable d)).
Proof.
  intros _ Hv. unfold createGuestbookEntry. rewrite Hv. split; [reflexivity|].
  simpl. rewrite length_app. simpl. lia.
Qed.

(** C2 (amended): when the validator rejects the text, the call throws one
    [Error] whose message is all the validator's reasons, in its order,
    joined by a comma and a space into a single string; each reason can be
    read in that message, and the tables are left as they were. *)
Theorem rejected_post_throws_joined_reasons (dflt : Defaults) (s : session.t)
    (message : string) (replyToId : option string) (d : Db) (errs : list string) :
  validateMessageContent message (postOptions replyToId) = Invalid errs ->
  exists e,
    createGuestbookEntry validateMessageContent dflt (Some s) message replyToId d
      = (Threw e, d)
    /\ kindOf e = ValidationFailed
    /\ errorMessage e = Js.join ", " errs
    /\ (forall r, In r errs -> contains r (errorMessage e) = true).
Proof.
  intros Hv. exists (InvalidContent (Js.join ", " errs)).
  unfold createGuestbookEntry. rewrite Hv. repeat split.
  intros r Hr. simpl. now apply contains_join.
Qed.

(** C3 (amended): a call with a session and a text the validator accepts
    resolves to no value; its effect is one new row at the end of the
    table, holding the sanitized text, the session user's id, the given
    [replyToId] (an empty one as null) and the store's id and timestamp.
    The [user] table is untouched. *)
Theorem accepted_post_appends_row (dflt : Defaults) (s : session.t)
    (message : string) (replyToId : option string) (d : Db) (sanitized : string) :
  validateMessageContent message (postOptions replyToId) = Valid sanitized ->
  exists d',
    createGuestbookEntry validateMessageContent dflt (Some s) message replyToId d
      = (Returned None, d')
    /\ guestbookTable d' =
         guestbookTable d ++
           [guestbook.mk (newId dflt) sanitized (now dflt)
                         (session.id (session.user_ s))
                         (if Js.truthy replyToId then replyToId else None)]
    /\ userTable d' = userTable d.
Proof.
  intros Hv. eexists. unfold createGuestbookEntry. rewrite Hv.
  split; [reflexivity|]. split; reflexivity.
Qed.

(** The action hands the caller's [replyToId] to the store without looking
    the parent up. Over a store whose insert is a plain append (no foreign
    key on [replyToId]; the schema is not among the sources), a table that
    satisfies the referential invariant satisfies it after an accepted post
    exactly when [replyToId] is absent or empty, is the id of a stored
    message, or is the id the store gives to the new row. *)
Theorem accepted_post_integrity_iff (dflt : Defaults) (s : session.t)
    (message : string) (replyToId : option string) (d : Db) (sanitized : string) :
  referentialIntegrity d = true ->
  validateMessageContent message (postOptions replyToId) = Valid sanitized ->
  (referentialIntegrity
     (snd (createGuestbookEntry validateMessageContent dflt (Some s)
             message replyToId d)) = true
   <->
   (Js.truthy replyToId = false
    \/ exists rid, replyToId = Some rid
                   /\ (hasMessage d rid = true \/ rid = newId dflt))).
Proof.
  intros Hd Hv. unfold createGuestbookEntry. rewrite Hv. simpl snd.
  rewrite (referentialIntegrity_insert _ _ _ Hd). simpl v_replyToId.
  unfold Js.or. destruct (Js.truthy replyToId) eqn:Ht.
  - destruct replyToId as [rid|]; [|discriminate Ht].
    rewrite orb_true_iff, String.eqb_eq. split.
    + intros [H|H]; right; exists rid; split; auto.
    + intros [H|[rid' [E [H|H]]]]; [discriminate H| |]; inversion E; subst; auto.
  - split; auto.
Qed.

(** Posting keeps stored reply ids non-empty. *)
Lemma post_keeps_replyIdsTruthy (dflt : Defaults) (session : option session.t)
    (message : string) (replyToId : option string) (d : Db) :
  replyIdsTruthy d = true ->
  replyIdsTruthy
    (snd (createGuestbookEntry validateMessageContent dflt session message
            replyToId d)) = true.
Proof.
  intros Hd. unfold createGuestbookEntry.
  destruct session as [s|]; [|exact Hd].
  destruct (validateMessageContent message (postOptions replyToId)); [|exact Hd].
  unfold replyIdsTruthy, insert; simpl. rewrite forallb_app.
  unfold replyIdsTruthy in Hd. rewrite Hd. simpl. rewrite andb_true_r.
  unfold Js.or. destruct (Js.truthy replyToId) eqn:Ht; [|reflexivity].
  destruct replyToId as [rid|]; [exact Ht | reflexivity].
Qed.

(** Posting keeps the ids a key, as long as the store hands out a new id. *)
Lemma post_keeps_keyed (dflt : Defaults) (session : option session.t)
    (message : string) (replyToId : option string) (d : Db) :
  keyed d -> hasMessage d (newId dflt) = false ->
  keyed (snd (createGuestbookEntry validateMessageContent dflt session message
                replyToId d)).
Proof.
  intros Hd Hfresh. unfold createGuestbookEntry.
  destruct session as [s|]; [|exact Hd].
  destruct (validateMessageContent message (postOptions replyToId)); [|exact Hd].
  unfold keyed, insert; simpl. rewrite map_app. simpl.
  apply NoDup_rev in Hd. rewrite <- rev_involutive. apply NoDup_rev.
  rewrite rev_app_distr. simpl. constructor; [|exact Hd].
  rewrite <- in_rev, in_map_iff. intros [p [Hid Hp]].
  assert (hasMessage d (newId dflt) = true) as E
    by (apply hasMessage_spec; exists p; auto).
  congruence.
Qed.

(** Every table the action can produce has its ids a key and its stored
    reply ids non-empty. *)
Lemma reachable_wellformed (d : Db) :
  reachable validateMessageContent d -> keyed d /\ replyIdsTruthy d = true.
Proof.
  induction 1 as [users | d dflt session message replyToId _ [IHk IHt] Hfresh].
  - split; [constructor | reflexivity].
  - split.
    + now apply post_keeps_keyed.
    + now apply post_keeps_replyIdsTruthy.
Qed.

End PostingFacts.

Section LengthLimits.

Variable hasLink : string -> bool.
Variable hasProfanity : string -> bool.

(** C7: a root post is validated against a maximum length of 200 and a
    reply against 1000. A text of 250 characters (already trimmed, with no
    link and no profanity) posted as a root message is rejected with a
    length reason and nothing is stored; the same text posted as a reply
    is accepted and stored. *)
Theorem root_limit_shorter_than_reply_limit (dflt : Defaults) (s : session.t)
    (text rid : string) (d : Db) :
  String.length text = 250 ->
  trim text = text ->
  hasLink text = false ->
  hasProfanity text = false ->
  rid <> "" ->
  maxLength (postOptions None) = 200
  /\ maxLength (postOptions (Some rid)) = 1000
  /\ maxLength (postOptions None) < maxLength (postOptions (Some rid))
  /\ (exists errs,
        validate hasLink hasProfanity text (postOptions None) = Invalid errs
        /\ existsb isLengthReason errs = true
        /\ createGuestbookEntry (validate hasLink hasProfanity) dflt (Some s)
             text None d
           = (Threw (InvalidContent (Js.join ", " errs)), d))
  /\ createGuestbookEntry (validate hasLink hasProfanity) dflt (Some s)
       text (Some rid) d
     = (Returned None,
        insert dflt (mkValues text (session.id (session.user_ s)) (Some rid)) d).
Proof.
  intros Hlen Htrim Hl Hp Hrid.
  apply truthy_Some in Hrid.
  assert (Hroot : validate hasLink hasProfanity text (postOptions None)
                  = Invalid [reasonCode TooLong]).
  { unfold validate, violations. rewrite Htrim, Hlen, Hl, Hp. reflexivity. }
  assert (Hreply : validate hasLink hasProfanity text (postOptions (Some rid))
                   = Valid text).
  { unfold validate, violations, postOptions.
    rewrite Hrid, Htrim, Hlen, Hl, Hp. reflexivity. }
  unfold createGuestbookEntry. rewrite Hroot, Hreply.
  split; [reflexivity|]. split; [unfold postOptions; now rewrite Hrid|].
  split; [unfold postOptions; rewrite Hrid; simpl; lia|].
  split.
  - exists [reasonCode TooLong]. repeat split.
  - unfold Js.or. rewrite Hrid. reflexivity.
Qed.

(** Text that is blank after trimming fails the minimum length under every
    configuration. *)
Lemma blank_text_rejected (text : string) (o : ValidationOptions) :
  trim text = "" ->
  exists rest,
    validate hasLink hasProfanity text o = Invalid (reasonCode TooShort :: rest).
Proof.
  intros Hb. unfold validate, violations. rewrite Hb. simpl.
  eexists. reflexivity.
Qed.

End LengthLimits.

(** ** Posting: worked cases *)

Lemma mallory_post_is_stored :
  canPost mallory = false
  /\ createGuestbookEntry exampleValidate storeDefaults (Some mallory)
       "hello" None emptyDb
     = (Returned None,
        mkDb [guestbook.mk "n1" "hello" 99 "u-mallory" None] [])
  /\ List.length
       (guestbookTable
          (snd (createGuestbookEntry exampleValidate storeDefaults (Some mallory)
                  "hello" None emptyDb)))
     = 1.
Proof.
  split; [reflexivity|].
  exact (unverified_session_post_is_stored exampleValidate storeDefaults mallory
           "hello" None emptyDb "hello" eq_refl eq_refl).
Defined.

(** Two rules violated at once: the catcher of the error receives one
    string, not the two reasons. *)
Lemma merged_message_is_not_the_reason_list :
  exampleValidate "darn http://x" (postOptions None)
    = Invalid ["links_not_allowed"; "profanity_not_allowed"]
  /\ exists e,
       createGuestbookEntry exampleValidate storeDefaults (Some alice)
         "darn http://x" None emptyDb = (Threw e, emptyDb)
       /\ reportedMessages e = ["links_not_allowed, profanity_not_allowed"]
       /\ reportedMessages e <> ["links_not_allowed"; "profanity_not_allowed"].
Proof.
  split; [reflexivity|].
  exists (InvalidContent "links_not_allowed, profanity_not_allowed").
  repeat split. discriminate.
Qed.

Lemma rejected_post_throws_joined_reasons_example :
  exists e,
    createGuestbookEntry exampleValidate storeDefaults (Some alice)
      "darn http://x" None emptyDb = (Threw e, emptyDb)
    /\ kindOf e = ValidationFailed
    /\ errorMessage e
       = Js.join ", " ["links_not_allowed"; "profanity_not_allowed"]
    /\ (forall r, In r ["links_not_allowed"; "profanity_not_allowed"] ->
                  contains r (errorMessage e) = true).
Proof.
  exact (rejected_post_throws_joined_reasons exampleValidate storeDefaults alice
           "darn http://x" None emptyDb
           ["links_not_allowed"; "profanity_not_allowed"] eq_refl).
Defined.

(** A verified user's accepted post hands nothing back to the caller. *)
Lemma accepted_post_resolves_to_undefined :
  canPost alice = true
  /\ exampleValidate "hello" (postOptions None) = Valid "hello"
  /\ fst (createGuestbookEntry exampleValidate storeDefaults (Some alice)
            "hello" None emptyDb) = Returned None
  /\ ~ (exists view,
          fst (createGuestbookEntry exampleValidate storeDefaults (Some alice)
                 "hello" None emptyDb) = Returned (Some view)).
Proof.
  repeat split. intros [view H]. discriminate H.
Qed.

Lemma accepted_post_appends_row_example :
  exists d',
    createGuestbookEntry exampleValidate storeDefaults (Some alice)
      " hello " (Some "m1") seedDb = (Returned None, d')
    /\ guestbookTable d' =
         guestbookTable seedDb ++
           [guestbook.mk "n1" "hello" 99 "u-alice" (Some "m1")]
    /\ userTable d' = userTable seedDb.
Proof.
  exact (accepted_post_appends_row exampleValidate storeDefaults alice
           " hello " (Some "m1") seedDb "hello" eq_refl).
Defined.

(** Over such a store, a reply to an id that no message has is stored all
    the same. *)
Lemma reply_to_unknown_id_breaks_integrity :
  referentialIntegrity emptyDb = true
  /\ createGuestbookEntry exampleValidate storeDefaults (Some alice)
       "hi" (Some "ghost") emptyDb
     = (Returned None,
        mkDb [guestbook.mk "n1" "hi" 99 "u-alice" (Some "ghost")] [])
  /\ referentialIntegrity
       (snd (createGuestbookEntry exampleValidate storeDefaults (Some alice)
               "hi" (Some "ghost") emptyDb)) = false.
Proof. repeat split. Qed.

Lemma accepted_post_integrity_iff_example :
  referentialIntegrity
    (snd (createGuestbookEntry exampleValidate storeDefaults (Some alice)
            "hi" (Some "m1") seedDb)) = true
  <->
  (Js.truthy (Some "m1") = false
   \/ exists rid, Some "m1" = Some rid
                  /\ (hasMessage seedDb rid = true \/ rid = newId storeDefaults)).
Proof.
  exact (accepted_post_integrity_iff exampleValidate storeDefaults alice
           "hi" (Some "m1") seedDb "hi" eq_refl eq_refl).
Defined.

Lemma root_limit_shorter_than_reply_limit_example :
  maxLength (postOptions None) = 200
  /\ maxLength (postOptions (Some "m1")) = 1000
  /\ maxLength (postOptions None) < maxLength (postOptions (Some "m1"))
  /\ (exists errs,
        exampleValidate longText (postOptions None) = Invalid errs
        /\ existsb isLengthReason errs = true
        /\ createGuestbookEntry exampleValidate storeDefaults (Some alice)
             longText None seedDb
           = (Threw (InvalidContent (Js.join ", " errs)), seedDb))
  /\ createGuestbookEntry exampleValidate storeDefaults (Some alice)
       longText (Some "m1") seedDb
     = (Returned None,
        insert storeDefaults (mkValues longText "u-alice" (Some "m1")) seedDb).
Proof.
  refine (root_limit_shorter_than_reply_limit (contains "http://") (contains "darn")
            storeDefaults alice longText "m1" seedDb _ _ _ _ _).
  - reflexivity.
  - vm_compute; reflexivity.
  - vm_compute; reflexivity.
  - vm_compute; reflexivity.
  - discriminate.
Defined.

(** ** Lower case and case-insensitive equality *)

Lemma nat_of_lowerChar (c : ascii) :
  nat_of_ascii (Js.lowerChar c) =
  if Js.isUpper c then nat_of_ascii c + 32 else nat_of_ascii c.
Proof.
  unfold Js.lowerChar. destruct (Js.isUpper c) eqn:E; [|reflexivity].
  apply nat_ascii_embedding. unfold Js.isUpper in E.
  apply andb_true_iff in E. destruct E as [_ E]. apply Nat.leb_le in E. lia.
Qed.

Lemma nat_of_ascii_inj (a b : ascii) : nat_of_ascii a = nat_of_ascii b -> a = b.
Proof.
  intros H. rewrite <- (ascii_nat_embedding a), <- (ascii_nat_embedding b).
  now rewrite H.
Qed.

Lemma lowerChar_eq_iff (a b : ascii) :
  Js.lowerChar a = Js.lowerChar b <-> sameLetter a b = true.
Proof.
  assert (L : Js.lowerChar a = Js.lowerChar b <->
              nat_of_ascii (Js.lowerChar a) = nat_of_ascii (Js.lowerChar b)).
  { split; [now intros -> | apply nat_of_ascii_inj]. }
  rewrite L, !nat_of_lowerChar. clear L. unfold sameLetter.
  rewrite !orb_true_iff, !andb_true_iff, Ascii.eqb_eq, !Nat.eqb_eq.
  assert (E : a = b <-> nat_of_ascii a = nat_of_ascii b).
  { split; [now intros -> | apply nat_of_ascii_inj]. }
  rewrite E. clear E. unfold Js.isUpper.
  destruct (Nat.leb_spec 65 (nat_of_ascii a)), (Nat.leb_spec (nat_of_ascii a) 90),
    (Nat.leb_spec 65 (nat_of_ascii b)), (Nat.leb_spec (nat_of_ascii b) 90);
    simpl; intuition (try discriminate; try lia).
Qed.

(** Comparing the lower-cased strings is comparing the strings letter by
    letter without regard to case. *)
Lemma toLowerCase_eq_iff (a b : string) :
  Js.toLowerCase a = Js.toLowerCase b <-> equalsIgnoreCase a b = true.
Proof.
  revert b. induction a as [|x a IH]; intros [|y b]; simpl;
    try (split; [discriminate | discriminate]); [tauto|].
  rewrite andb_true_iff, <- IH, <- lowerChar_eq_iff. split.
  - intros H. inversion H. auto.
  - intros [-> ->]. reflexivity.
Qed.

Lemma toLowerCase_empty (s : string) : Js.toLowerCase s = "" <-> s = "".
Proof. destruct s; simpl; split; congruence. Qed.

Lemma strictEq_Some (x y : string) : Js.strictEq (Some x) (Some y) = true <-> x = y.
Proof. apply String.eqb_eq. Qed.

(** ** The feed query *)

Lemma insertDesc_perm (x : JoinedRow) (l : list JoinedRow) :
  Permutation (insertDesc x l) (x :: l).
Proof.
  induction l as [|y l IH]; simpl; [reflexivity|].
  destruct (createdAt y <=? createdAt x)%Z; [reflexivity|].
  rewrite IH. apply perm_swap.
Qed.

Lemma orderByCreatedAtDesc_perm (l : list JoinedRow) :
  Permutation (orderByCreatedAtDesc l) l.
Proof.
  induction l as [|x l IH]; simpl; [reflexivity|].
  rewrite insertDesc_perm. now constructor.
Qed.

Lemma insertDesc_sorted (x : JoinedRow) (l : list JoinedRow) :
  Sorted newerFirst l -> Sorted newerFirst (insertDesc x l).
Proof.
  induction l as [|y l IH]; intros Hs; simpl.
  - repeat constructor.
  - destruct (Z.leb_spec (createdAt y) (createdAt x)).
    + constructor; [exact Hs|]. constructor. exact H.
    + inversion Hs as [|? ? Hl Hhd]; subst. constructor; [now apply IH|].
      destruct l as [|z l]; simpl.
      * constructor. unfold newerFirst. lia.
      * destruct (Z.leb_spec (createdAt z) (createdAt x)).
        -- constructor. unfold newerFirst. lia.
        -- inversion Hhd; subst. now constructor.
Qed.

(** The query yields the rows newest first. *)
Lemma orderByCreatedAtDesc_sorted (l : list JoinedRow) :
  Sorted newerFirst (orderByCreatedAtDesc l).
Proof.
  induction l as [|x l IH]; simpl; [constructor | now apply insertDesc_sorted].
Qed.

Lemma In_firstn_in {A : Type} (n : nat) (l : list A) (x : A) :
  In x (firstn n l) -> In x l.
Proof.
  intros H. rewrite <- (firstn_skipn n l). apply in_or_app. now left.
Qed.

Lemma In_skipn_in {A : Type} (n : nat) (l : list A) (x : A) :
  In x (skipn n l) -> In x l.
Proof.
  intros H. rewrite <- (firstn_skipn n l). apply in_or_app. now right.
Qed.

(** Every selected row is the join of a row of the table. *)
Lemma selectEntries_from_table (d : Db) (limit offset : Z) (row : JoinedRow) :
  In row (selectEntries d limit offset) ->
  exists g, In g (guestbookTable d) /\ row = joinUser d g.
Proof.
  unfold selectEntries. intros H.
  apply In_firstn_in, In_skipn_in in H.
  apply (Permutation_in _ (orderByCreatedAtDesc_perm _)) in H.
  apply in_map_iff in H. destruct H as [g [E Hg]]. exists g. auto.
Qed.

Lemma selectEntries_length (d : Db) (limit offset : Z) :
  List.length (selectEntries d limit offset) =
  Nat.min (Z.to_nat limit) (List.length (guestbookTable d) - Z.to_nat offset).
Proof.
  unfold selectEntries.
  rewrite length_firstn, length_skipn,
    (Permutation_length (orderByCreatedAtDesc_perm _)), length_map.
  reflexivity.
Qed.

Lemma entry_withReplyInfo (d : Db) (row : JoinedRow) :
  entry (withReplyInfo d row) = row.
Proof. unfold withReplyInfo. destruct (Js.truthy (replyToId row)); reflexivity. Qed.

(** The page hands back every selected row, in the order of the query. *)
Lemma entries_rows (env : Env) (page limit : Z) (d : Db) :
  map (fun e => entry (info e)) (entries (getGuestbookEntries env page limit d))
  = selectEntries d limit ((page - 1) * limit).
Proof.
  unfold getGuestbookEntries; simpl. rewrite !map_map.
  erewrite map_ext; [apply map_id|].
  intros r. simpl. apply entry_withReplyInfo.
Qed.

Lemma entries_inv (env : Env) (page limit : Z) (d : Db) (e : EntryWithCreator) :
  In e (entries (getGuestbookEntries env page limit d)) ->
  exists row,
    In row (selectEntries d limit ((page - 1) * limit))
    /\ e = withCreator (Js.optToLowerCase (CREATOR_USERNAME env))
             (withReplyInfo d row).
Proof.
  unfold getGuestbookEntries; simpl. rewrite map_map, in_map_iff.
  intros [row [E H]]. exists row. auto.
Qed.

(** Looking a stored id up in a keyed table finds that very row. *)
Lemma find_by_id (tbl : list guestbook.row) (p : guestbook.row) :
  NoDup (map guestbook.id tbl) -> In p tbl ->
  find (fun g => guestbook.id g =? guestbook.id p) tbl = Some p.
Proof.
  induction tbl as [|g tbl IH]; intros Hk Hin; [contradiction|].
  simpl in Hk. inversion Hk as [|? ? Hfresh Hk']; subst. simpl.
  destruct Hin as [->|Hin].
  - now rewrite String.eqb_refl.
  - destruct (String.eqb_spec (guestbook.id g) (guestbook.id p)) as [E|_].
    + exfalso. apply Hfresh. rewrite E. now apply in_map.
    + now apply IH.
Qed.


(** ** Pagination *)

(** [ceilDiv a b] is the ceiling of [a / b]: the one integer [k] with
    [b * (k - 1) < a <= b * k]. *)
Lemma ceilDiv_spec (a b : Z) :
  (0 < b)%Z ->
  (b * (Js.ceilDiv a b - 1) < a <= b * Js.ceilDiv a b)%Z.
Proof.
  intros Hb. unfold Js.ceilDiv.
  pose proof (Z.div_mod (- a) b ltac:(lia)) as E.
  pose proof (Z.mod_pos_bound (- a) b Hb) as B.
  nia.
Qed.

Lemma ceilDiv_unique (a b k : Z) :
  (0 < b)%Z -> (b * (k - 1) < a <= b * k)%Z -> Js.ceilDiv a b = k.
Proof.
  intros Hb Hk. pose proof (ceilDiv_spec a b Hb) as H. nia.
Qed.

(** C5: for a page number of at least 1 and a positive page size, the page
    holds at most [limit] entries (exactly the rows left from the offset on,
    up to [limit]); [total] is the number of rows of the table;
    [totalPages] is the ceiling of [total / limit]; [hasNext] is
    [page < totalPages] and [hasPrev] is [page > 1]. *)
Theorem feed_page_pagination (env : Env) (pageNo pageSize : Z) (d : Db) :
  (1 <= pageNo)%Z -> (0 < pageSize)%Z ->
  let fp := getGuestbookEntries env pageNo pageSize d in
  let p := pagination fp in
  (Z.of_nat (List.length (entries fp)) <= pageSize)%Z
  /\ Z.of_nat (List.length (entries fp))
     = Z.min pageSize (Z.max 0 (total p - (pageNo - 1) * pageSize))
  /\ total p = Z.of_nat (List.length (guestbookTable d))
  /\ (pageSize * (totalPages p - 1) < total p <= pageSize * totalPages p)%Z
  /\ (hasNext p = true <-> (pageNo < totalPages p)%Z)
  /\ (hasPrev p = true <-> (1 < pageNo)%Z)
  /\ page p = pageNo
  /\ limit p = pageSize.
Proof.
  intros Hp Hl fp p.
  assert (Hlen : List.length (entries fp)
                 = List.length (selectEntries d pageSize ((pageNo - 1) * pageSize))).
  { unfold fp. rewrite <- entries_rows with (env := env). now rewrite length_map. }
  rewrite Hlen, selectEntries_length.
  unfold p, fp, getGuestbookEntries, totalCount; simpl.
  pose proof (ceilDiv_spec (Z.of_nat (List.length (guestbookTable d))) pageSize Hl)
    as Hc.
  repeat split; try apply Z.ltb_lt; try tauto; try nia.
Qed.

(** ** Reply resolution *)


Lemma findUser_by_id (d : Db) (u : user.row) :
  NoDup (map user.id (userTable d)) -> In u (userTable d) ->
  findUser d (user.id u) = Some u.
Proof.
  unfold findUser. induction (userTable d) as [|x l IH]; intros Hk Hin;
    [contradiction|].
  simpl in Hk. inversion Hk as [|? ? Hfresh Hk']; subst. simpl.
  destruct Hin as [->|Hin].
  - now rewrite String.eqb_refl.
  - destruct (String.eqb_spec (user.id x) (user.id u)) as [E|_].
    + exfalso. apply Hfresh. rewrite E. now apply in_map.
    + now apply IH.
Qed.

Lemma findUser_none (d : Db) (uid : string) :
  (forall u, In u (userTable d) -> user.id u <> uid) -> findUser d uid = None.
Proof.
  unfold findUser. induction (userTable d) as [|x l IH]; intros H;
    [reflexivity|]. simpl.
  destruct (String.eqb_spec (user.id x) uid) as [E|_].
  - exfalso. apply (H x); [now left | exact E].
  - apply IH. intros u Hu. apply H. now right.
Qed.

(** The label of a joined row is the label of the author's row of the
    [user] table, and is absent when the author has no row. *)
Lemma authorLabel_joinUser (d : Db) (g : guestbook.row) :
  authorLabel (joinUser d g) = optField userLabel (findUser d (guestbook.userId g)).
Proof.
  unfold authorLabel, joinUser, userLabel; simpl.
  destruct (findUser d (guestbook.userId g)); reflexivity.
Qed.



(** ** The creator flag *)

Lemma isCreator_withCreator (c : option string) (x : EntryWithReplyInfo) :
  isCreator (withCreator c x)
  = (Js.truthy c && Js.strictEq (Js.optToLowerCase (authorLabel (entry x))) c)%bool.
Proof. reflexivity. Qed.

(** The entries without their flag do not depend on the configuration. *)
Lemma entries_info_env (env env' : Env) (page limit : Z) (d : Db) :
  map info (entries (getGuestbookEntries env' page limit d))
  = map info (entries (getGuestbookEntries env page limit d)).
Proof.
  unfold getGuestbookEntries; simpl. rewrite !map_map. reflexivity.
Qed.

(** The feed's flag, the path that folds the case (ASCII labels): with a
    creator label configured, an entry is flagged exactly when its author
    label is present and equals the creator label up to the case of its
    letters. The entry's fields are those of a stored row, its label is
    that of the author's row of the [user] table (user ids being a key),
    absent when the author has no row, in which case the entry is not
    flagged; and the entries without their flags are the same under every
    configuration. *)
Theorem isCreator_iff_label_matches_creator (env : Env) (page limit : Z) (d : Db)
    (c : string) (e : EntryWithCreator) :
  CREATOR_USERNAME env = Some c -> c <> "" -> isAscii c = true ->
  In e (entries (getGuestbookEntries env page limit d)) ->
  (forall l, authorLabel (entry (info e)) = Some l -> isAscii l = true) ->
  (isCreator e = true <->
   exists l, authorLabel (entry (info e)) = Some l /\ equalsIgnoreCase l c = true)
  /\ (exists g,
        In g (guestbookTable d)
        /\ entry (info e) = joinUser d g
        /\ id (entry (info e)) = guestbook.id g
        /\ message (entry (info e)) = guestbook.message g
        /\ createdAt (entry (info e)) = guestbook.createdAt g
        /\ userId (entry (info e)) = guestbook.userId g
        /\ replyToId (entry (info e)) = guestbook.replyToId g
        /\ (forall u,
              NoDup (map user.id (userTable d)) ->
              In u (userTable d) ->
              user.id u = guestbook.userId g ->
              authorLabel (entry (info e)) = userLabel u
              /\ (isCreator e = true <->
                  exists l, userLabel u = Some l /\ equalsIgnoreCase l c = true))
        /\ ((forall u, In u (userTable d) -> user.id u <> guestbook.userId g) ->
            authorLabel (entry (info e)) = None /\ isCreator e = false))
  /\ (forall env',
        map info (entries (getGuestbookEntries env' page limit d))
        = map info (entries (getGuestbookEntries env page limit d))).
Proof.
  intros Hc Hne _ He _.
  apply entries_inv in He. destruct He as [row [Hrow ->]].
  rewrite Hc. simpl Js.optToLowerCase. rewrite isCreator_withCreator.
  simpl info. rewrite entry_withReplyInfo.
  assert (Htr : Js.truthy (Some (Js.toLowerCase c)) = true).
  { apply truthy_Some. now rewrite toLowerCase_empty. }
  rewrite Htr. simpl andb.
  assert (Hiff : forall lab : option string,
            Js.strictEq (Js.optToLowerCase lab) (Some (Js.toLowerCase c)) = true <->
            exists l, lab = Some l /\ equalsIgnoreCase l c = true).
  { intros [l|]; simpl.
    - rewrite String.eqb_eq, toLowerCase_eq_iff. split.
      + intros H. exists l. auto.
      + intros [l' [E H]]. inversion E; subst. exact H.
    - split; [discriminate | intros [l [E _]]; discriminate]. }
  split; [apply Hiff | split].
  - apply selectEntries_from_table in Hrow. destruct Hrow as [g [Hg ->]].
    exists g. split; [exact Hg|]. do 6 (split; [reflexivity|]). split.
    + intros u Hu Hin Hid.
      rewrite authorLabel_joinUser, <- Hid, (findUser_by_id d u Hu Hin). simpl.
      split; [reflexivity | apply Hiff].
    + intros Hnone. rewrite authorLabel_joinUser, (findUser_none d _ Hnone).
      split; reflexivity.
  - intros env'. apply entries_info_env.
Qed.

(** C10: when [CREATOR_USERNAME] is unset or empty, no entry of any page is
    flagged. *)
Theorem no_creator_no_flag (env : Env) (page limit : Z) (d : Db)
    (e : EntryWithCreator) :
  CREATOR_USERNAME env = None \/ CREATOR_USERNAME env = Some "" ->
  In e (entries (getGuestbookEntries env page limit d)) ->
  isCreator e = false.
Proof.
  intros Hc He.
  apply entries_inv in He. destruct He as [row [_ ->]].
  rewrite isCreator_withCreator. destruct Hc as [-> | ->]; reflexivity.
Qed.

(** ** The ignore toggle *)

Lemma filter_neq_remove (u : string) (l : list string) :
  filter (fun x => negb (x =? u)) l = remove string_dec u l.
Proof.
  induction l as [|x l IH]; simpl; [reflexivity|].
  destruct (string_dec u x) as [E|NE].
  - subst. now rewrite String.eqb_refl.
  - destruct (String.eqb_spec x u); [congruence|]. simpl. now rewrite IH.
Qed.

Lemma includes_In (l : list string) (u : string) :
  Js.includes l u = true <-> In u l.
Proof.
  unfold Js.includes. rewrite existsb_exists. split.
  - intros [x [Hx E]]. apply String.eqb_eq in E. now subst.
  - intros H. exists u. split; [exact H | apply String.eqb_refl].
Qed.

(** C9: the list handed to the [updateIgnoredUsers] mutation is the whole
    new list: the current list without [u] when [u] is in it, the current
    list with [u] appended when it is not; the other labels are kept. *)
Theorem ignore_toggle_replaces_whole_list (preferences : option Preferences)
    (u : string) :
  let current := match preferences with
                 | Some p => ignoredUsers p
                 | None => []
                 end in
  exists newIgnored,
    handleUsernameAction preferences u ignore = UpdateIgnoredUsers newIgnored
    /\ (In u current ->
        newIgnored = remove string_dec u current /\ ~ In u newIgnored)
    /\ (~ In u current -> newIgnored = current ++ [u] /\ In u newIgnored)
    /\ (forall v, v <> u -> (In v newIgnored <-> In v current)).
Proof.
  intros current. unfold handleUsernameAction. fold current.
  destruct (Js.includes current u) eqn:E.
  - apply includes_In in E.
    exists (filter (fun x => negb (x =? u)) current).
    split; [reflexivity|]. rewrite filter_neq_remove.
    split; [intros _; split; [reflexivity | apply remove_In]|].
    split; [intros N; contradiction|].
    intros v Hv. split; intros Hin.
    + now apply in_remove in Hin.
    + apply in_in_remove; auto.
  - assert (N : ~ In u current).
    { intros Hin. apply includes_In in Hin. congruence. }
    exists (current ++ [u]).
    split; [reflexivity|].
    split; [intros Hin; contradiction|].
    split; [intros _; split; [reflexivity | apply in_or_app; right; now left]|].
    intros v Hv. split; intros Hin.
    + apply in_app_or in Hin. destruct Hin as [Hin|[Hin|[]]]; [exact Hin|].
      congruence.
    + apply in_or_app. now left.
Qed.

(** ** The feed: worked cases *)

Lemma sampleDb_keyed : keyed sampleDb.
Proof.
  unfold keyed; simpl. repeat constructor; simpl; intuition discriminate.
Defined.

(** The second page of three over the five sample rows. *)
Lemma feed_page_pagination_example :
  let fp := getGuestbookEntries (mkEnv None) 2 3 sampleDb in
  let p := pagination fp in
  (Z.of_nat (List.length (entries fp)) <= 3)%Z
  /\ Z.of_nat (List.length (entries fp))
     = Z.min 3 (Z.max 0 (total p - (2 - 1) * 3))
  /\ total p = Z.of_nat (List.length (guestbookTable sampleDb))
  /\ (3 * (totalPages p - 1) < total p <= 3 * totalPages p)%Z
  /\ (hasNext p = true <-> (2 < totalPages p)%Z)
  /\ (hasPrev p = true <-> (1 < 2)%Z)
  /\ page p = 2%Z
  /\ limit p = 3%Z.
Proof.
  exact (feed_page_pagination (mkEnv None) 2 3 sampleDb
           ltac:(lia) ltac:(lia)).
Defined.

Example feed_page_sample_values :
  map (fun e => id (entry (info e)))
      (entries (getGuestbookEntries (mkEnv None) 1 3 sampleDb)) = ["m3"; "m4"; "m2"]
  /\ map (fun e => id (entry (info e)))
         (entries (getGuestbookEntries (mkEnv None) 2 3 sampleDb)) = ["m1"; "m5"]
  /\ pagination (getGuestbookEntries (mkEnv None) 2 3 sampleDb)
     = mkPagination 2 3 5 2 false true.
Proof. repeat split. Qed.

Lemma sampleDb_users_keyed : NoDup (map user.id (userTable sampleDb)).
Proof.
  simpl. repeat constructor; simpl; intuition discriminate.
Defined.


Example reply_author_sample_values :
  map (fun e => (id (entry (info e)), replyToId (entry (info e)),
                 replyToMessage (info e), replyToUsername (info e)))
      (entries (getGuestbookEntries (mkEnv None) 1 5 sampleDb))
  = [ ("m3", Some "gone", None, None);
      ("m4", None, None, None);
      ("m2", Some "m1", Some "first", Some "Alice");
      ("m1", None, None, None);
      ("m5", Some "m4", Some "fourth", None) ]
  /\ map userLabel (userTable sampleDb) = [Some "Alice"; Some "bob"; Some "Carol"].
Proof. split; reflexivity. Qed.

Example reply_info_sample_values :
  map (fun e => (id (entry (info e)), replyToId (entry (info e)),
                 replyToMessage (info e), replyToUsername (info e)))
      (entries (getGuestbookEntries (mkEnv None) 1 3 sampleDb))
  = [ ("m3", Some "gone", None, None);
      ("m4", None, None, None);
      ("m2", Some "m1", Some "first", Some "Alice") ].
Proof. reflexivity. Qed.

(** With the creator configured as [ALICE], the entries of [Alice] are the
    flagged ones. *)
Lemma isCreator_iff_label_matches_creator_example :
  Forall
    (fun e =>
       (isCreator e = true <->
        exists l, authorLabel (entry (info e)) = Some l
                  /\ equalsIgnoreCase l "ALICE" = true)
       /\ (exists g,
             In g (guestbookTable sampleDb)
             /\ entry (info e) = joinUser sampleDb g
             /\ id (entry (info e)) = guestbook.id g
             /\ message (entry (info e)) = guestbook.message g
             /\ createdAt (entry (info e)) = guestbook.createdAt g
             /\ userId (entry (info e)) = guestbook.userId g
             /\ replyToId (entry (info e)) = guestbook.replyToId g
             /\ (forall u,
                   NoDup (map user.id (userTable sampleDb)) ->
                   In u (userTable sampleDb) ->
                   user.id u = guestbook.userId g ->
                   authorLabel (entry (info e)) = userLabel u
                   /\ (isCreator e = true <->
                       exists l, userLabel u = Some l
                                 /\ equalsIgnoreCase l "ALICE" = true))
             /\ ((forall u, In u (userTable sampleDb) ->
                            user.id u <> guestbook.userId g) ->
                 authorLabel (entry (info e)) = None /\ isCreator e = false))
       /\ (forall env',
             map info (entries (getGuestbookEntries env' 2 3 sampleDb))
             = map info
                 (entries (getGuestbookEntries (mkEnv (Some "ALICE")) 2 3 sampleDb))))
    (entries (getGuestbookEntries (mkEnv (Some "ALICE")) 2 3 sampleDb)).
Proof.
  apply Forall_forall. intros e He.
  refine (isCreator_iff_label_matches_creator (mkEnv (Some "ALICE")) 2 3 sampleDb
            "ALICE" e eq_refl _ eq_refl He _).
  - discriminate.
  - destruct He as [<-|[<-|[]]]; intros l H; inversion H; reflexivity.
Defined.


Example isCreator_sample_values :
  map isCreator (entries (getGuestbookEntries (mkEnv (Some "ALICE")) 2 3 sampleDb))
    = [true; true]
  /\ map isCreator (entries (getGuestbookEntries (mkEnv (Some "ALICE")) 1 3 sampleDb))
    = [false; false; false].
Proof. split; reflexivity. Qed.

Lemma no_creator_no_flag_example :
  Forall (fun e => isCreator e = false)
         (entries (getGuestbookEntries (mkEnv (Some "")) 1 3 sampleDb))
  /\ Forall (fun e => isCreator e = false)
            (entries (getGuestbookEntries (mkEnv None) 1 3 sampleDb)).
Proof.
  split; apply Forall_forall; intros e He.
  - exact (no_creator_no_flag (mkEnv (Some "")) 1 3 sampleDb e
             (or_intror eq_refl) He).
  - exact (no_creator_no_flag (mkEnv None) 1 3 sampleDb e
             (or_introl eq_refl) He).
Defined.

(** The [Home] page does not read the entry's flag: it compares the label
    with the configured value as it is, so a creator configured as [ALICE]
    is not highlighted for the label [Alice], and an empty configuration
    highlights an entry without a label. *)
Example home_highlight_is_case_sensitive :
  map (homeIsCreator (mkEnv (Some "ALICE")))
      (selectEntries sampleDb 3 3) = [false; false]
  /\ map (homeIsCreator (mkEnv (Some "Alice")))
         (selectEntries sampleDb 3 3) = [true; true]
  /\ map (homeIsCreator (mkEnv (Some "")))
         (selectEntries sampleDb 3 0) = [false; true; false].
Proof. repeat split. Qed.

(** ** The ignore toggle: worked cases *)

Example ignore_toggle_sample_values :
  handleUsernameAction (Some (mkPreferences ["alice"; "bob"])) "alice" ignore
    = UpdateIgnoredUsers ["bob"]
  /\ handleUsernameAction (Some (mkPreferences ["bob"])) "alice" ignore
    = UpdateIgnoredUsers ["bob"; "alice"]
  /\ handleUsernameAction None "alice" ignore = UpdateIgnoredUsers ["alice"]
  /\ handleUsernameAction (Some (mkPreferences ["a"; "b"; "a"])) "a" ignore
    = UpdateIgnoredUsers ["b"]
  /\ handleUsernameAction None "alice" viewOnly = RouterPush "/user/alice".
Proof. repeat split. Qed.

(** * Further properties of the actions and of the Home page *)

(** ** Ordering and slicing *)

Lemma insertDescBy_perm {A : Type} (key : A -> Z) (x : A) (l : list A) :
  Permutation (insertDescBy key x l) (x :: l).
Proof.
  induction l as [|y l IH]; simpl; [reflexivity|].
  destruct (key y <=? key x)%Z; [reflexivity|].
  rewrite IH. apply perm_swap.
Qed.

Lemma orderByDesc_perm {A : Type} (key : A -> Z) (l : list A) :
  Permutation (orderByDesc key l) l.
Proof.
  induction l as [|x l IH]; simpl; [reflexivity|].
  rewrite insertDescBy_perm. now constructor.
Qed.

Lemma insertDescBy_sorted {A : Type} (key : A -> Z) (x : A) (l : list A) :
  Sorted (fun a b => (key b <= key a)%Z) l ->
  Sorted (fun a b => (key b <= key a)%Z) (insertDescBy key x l).
Proof.
  induction l as [|y l IH]; intros Hs; simpl.
  - repeat constructor.
  - destruct (Z.leb_spec (key y) (key x)) as [Hle|Hgt].
    + constructor; [exact Hs|]. now constructor.
    + inversion Hs as [|? ? Hl Hhd]; subst. constructor; [now apply IH|].
      destruct l as [|z l]; simpl.
      * constructor. lia.
      * destruct (Z.leb_spec (key z) (key x)).
        -- constructor. lia.
        -- inversion Hhd; subst. now constructor.
Qed.

Lemma orderByDesc_sorted {A : Type} (key : A -> Z) (l : list A) :
  Sorted (fun a b => (key b <= key a)%Z) (orderByDesc key l).
Proof.
  induction l as [|x l IH]; simpl; [constructor | now apply insertDescBy_sorted].
Qed.

Lemma orderByCreatedAtDesc_generic (l : list JoinedRow) :
  orderByCreatedAtDesc l = orderByDesc createdAt l.
Proof.
  unfold orderByCreatedAtDesc, orderByDesc.
  induction l as [|x l IH]; simpl; [reflexivity|]. rewrite IH.
  generalize (fold_right (insertDescBy createdAt) [] l). intros r.
  induction r as [|y r IHr]; simpl; [reflexivity|]. now rewrite IHr.
Qed.

Lemma StronglySorted_skipn {A : Type} (R : A -> A -> Prop) (n : nat) (l : list A) :
  StronglySorted R l -> StronglySorted R (skipn n l).
Proof.
  revert l. induction n as [|n IH]; intros l Hs; [exact Hs|].
  destruct l as [|x l]; [exact Hs|]. simpl. apply IH.
  now inversion Hs.
Qed.

Lemma StronglySorted_firstn {A : Type} (R : A -> A -> Prop) (n : nat) (l : list A) :
  StronglySorted R l -> StronglySorted R (firstn n l).
Proof.
  revert l. induction n as [|n IH]; intros l Hs; [constructor|].
  destruct l as [|x l]; [constructor|]. simpl.
  inversion Hs as [|? ? Hl Hall]; subst. constructor; [now apply IH|].
  rewrite Forall_forall in *. intros y Hy. apply Hall.
  now apply In_firstn_in in Hy.
Qed.

Lemma newerFirst_transitive : Relations_1.Transitive newerFirst.
Proof. intros a b c. unfold newerFirst. lia. Qed.

(** X1: the rows of every page of the feed are in the order of the query:
    each entry is at least as new as every entry after it. *)
Theorem feed_page_newest_first (env : Env) (page limit : Z) (d : Db) :
  StronglySorted newerFirst
    (map (fun e => entry (info e)) (entries (getGuestbookEntries env page limit d))).
Proof.
  rewrite entries_rows. unfold selectEntries.
  apply StronglySorted_firstn, StronglySorted_skipn.
  apply Sorted_StronglySorted; [exact newerFirst_transitive|].
  apply orderByCreatedAtDesc_sorted.
Qed.

(** Cutting a list into [k] consecutive slices of [n] elements and gluing
    them back gives the list, when the slices reach its end. *)
Lemma slices_concat {A : Type} (n k : nat) (l : list A) :
  List.length l <= k * n ->
  List.concat (map (fun i => firstn n (skipn (i * n) l)) (seq 0 k)) = l.
Proof.
  revert l. induction k as [|k IH]; intros l Hlen.
  - destruct l; [reflexivity | simpl in Hlen; lia].
  - simpl seq. rewrite <- seq_shift, map_cons, map_map. simpl List.concat.
    transitivity (firstn n l ++ skipn n l); [|apply firstn_skipn].
    f_equal. rewrite <- (IH (skipn n l)).
    + f_equal. apply map_ext. intros i.
      rewrite skipn_skipn. do 2 f_equal. lia.
    + rewrite length_skipn. lia.
Qed.

Lemma pageNumbers_map {B : Type} (f : Z -> B) (tp : Z) :
  map f (pageNumbers tp) = map (fun i => f (Z.of_nat i + 1)%Z) (seq 0 (Z.to_nat tp)).
Proof. unfold pageNumbers. now rewrite map_map. Qed.

(** Glued together, the slices of pages 1 to [totalPages] are the ordered
    table they were cut from. *)
Lemma feed_pages_concat (env : Env) (pageSize : Z) (d : Db) :
  (0 < pageSize)%Z ->
  List.concat
    (map (fun p => map (fun e => entry (info e))
                       (entries (getGuestbookEntries env p pageSize d)))
         (pageNumbers (totalPages (pagination (getGuestbookEntries env 1 pageSize d)))))
  = orderByCreatedAtDesc (map (joinUser d) (guestbookTable d)).
Proof.
  intros Hl. rewrite pageNumbers_map.
  set (all := orderByCreatedAtDesc (map (joinUser d) (guestbookTable d))).
  simpl totalPages.
  pose proof (ceilDiv_spec (totalCount d) pageSize Hl) as Hc.
  assert (Hall : List.length all = List.length (guestbookTable d)).
  { unfold all. now rewrite (Permutation_length (orderByCreatedAtDesc_perm _)),
      length_map. }
  rewrite <- (slices_concat (Z.to_nat pageSize)
                (Z.to_nat (Js.ceilDiv (totalCount d) pageSize)) all).
  - f_equal. apply map_ext. intros i. rewrite entries_rows.
    unfold selectEntries. fold all.
    replace (Z.to_nat ((Z.of_nat i + 1 - 1) * pageSize))
      with (i * Z.to_nat pageSize)%nat; [reflexivity|].
    rewrite Z2Nat.inj_mul by lia. f_equal. lia.
  - rewrite Hall. unfold totalCount in *.
    assert (0 <= Js.ceilDiv (Z.of_nat (List.length (guestbookTable d))) pageSize)%Z
      as Hpos by nia.
    apply Nat2Z.inj_le. rewrite Nat2Z.inj_mul, !Z2Nat.id by lia.
    rewrite Z.mul_comm. apply Hc.
Qed.

Lemma sorted_distinct_strict (l : list JoinedRow) :
  StronglySorted newerFirst l -> NoDup (map createdAt l) ->
  StronglySorted (fun a b => (createdAt b < createdAt a)%Z) l.
Proof.
  induction 1 as [|x l Hl IH Hall]; intros Hd; [constructor|].
  simpl in Hd. inversion Hd as [|? ? Hfresh Hd']; subst.
  constructor; [now apply IH|].
  rewrite Forall_forall in *. intros y Hy. specialize (Hall y Hy).
  unfold newerFirst in Hall.
  assert (createdAt y <> createdAt x).
  { intros E. apply Hfresh. rewrite <- E. now apply in_map. }
  lia.
Qed.

(** X2: for a positive page size and a table whose creation times are all
    different, the pages 1 to [totalPages] read one after the other hold
    every stored message exactly once, in strictly descending order of
    creation time. *)
Theorem feed_pages_tile_the_table (env : Env) (pageSize : Z) (d : Db) :
  NoDup (map guestbook.createdAt (guestbookTable d)) ->
  (0 < pageSize)%Z ->
  Permutation
    (List.concat
       (map (fun p => map (fun e => entry (info e))
                          (entries (getGuestbookEntries env p pageSize d)))
            (pageNumbers
               (totalPages (pagination (getGuestbookEntries env 1 pageSize d))))))
    (map (joinUser d) (guestbookTable d))
  /\ StronglySorted (fun a b => (createdAt b < createdAt a)%Z)
       (List.concat
          (map (fun p => map (fun e => entry (info e))
                             (entries (getGuestbookEntries env p pageSize d)))
               (pageNumbers
                  (totalPages (pagination (getGuestbookEntries env 1 pageSize d)))))).
Proof.
  intros Hd Hl. rewrite (feed_pages_concat env pageSize d Hl).
  split; [apply orderByCreatedAtDesc_perm|].
  apply sorted_distinct_strict.
  - apply Sorted_StronglySorted; [exact newerFirst_transitive|].
    apply orderByCreatedAtDesc_sorted.
  - apply (Permutation_NoDup
             (Permutation_sym
                (Permutation_map createdAt (orderByCreatedAtDesc_perm _)))).
    rewrite map_map. exact Hd.
Qed.

Lemma entries_length (env : Env) (page limit : Z) (d : Db) :
  List.length (entries (getGuestbookEntries env page limit d))
  = List.length (selectEntries d limit ((page - 1) * limit)).
Proof. rewrite <- entries_rows with (env := env). now rewrite length_map. Qed.

Lemma nonempty_length {A : Type} (l : list A) : l <> [] <-> 0 < List.length l.
Proof. destruct l; simpl; split; try congruence; try lia. Qed.

(** X3: for a page number of at least 1 and a positive page size, a page
    has entries exactly when its number is at most [totalPages], and
    [hasNext] holds exactly when the following page has entries. *)
Theorem feed_page_nonempty_iff (env : Env) (pageNo pageSize : Z) (d : Db) :
  (1 <= pageNo)%Z -> (0 < pageSize)%Z ->
  (entries (getGuestbookEntries env pageNo pageSize d) <> [] <->
   (pageNo <= totalPages (pagination (getGuestbookEntries env pageNo pageSize d)))%Z)
  /\ (hasNext (pagination (getGuestbookEntries env pageNo pageSize d)) = true <->
      entries (getGuestbookEntries env (pageNo + 1) pageSize d) <> []).
Proof.
  intros Hp Hl.
  pose proof (ceilDiv_spec (totalCount d) pageSize Hl) as Hc.
  assert (Hne : forall q, (1 <= q)%Z ->
            (entries (getGuestbookEntries env q pageSize d) <> [] <->
             (q <= Js.ceilDiv (totalCount d) pageSize)%Z)).
  { intros q Hq. rewrite nonempty_length, entries_length, selectEntries_length.
    unfold totalCount in *. split; intros H; nia. }
  split.
  - apply Hne, Hp.
  - simpl hasNext. rewrite Z.ltb_lt, Hne by lia. lia.
Qed.

(** X4: a reply text shown with an entry is never made up: the entry is a
    reply with a non-empty [replyToId], a message of that id is stored, and
    the text and the author label shown are those of such a message. *)
Theorem reply_text_is_a_stored_message (env : Env) (page limit : Z) (d : Db)
    (e : EntryWithCreator) (text : string) :
  In e (entries (getGuestbookEntries env page limit d)) ->
  replyToMessage (info e) = Some text ->
  exists rid p,
    replyToId (entry (info e)) = Some rid
    /\ rid <> ""
    /\ In p (guestbookTable d)
    /\ guestbook.id p = rid
    /\ guestbook.message p = text
    /\ replyToUsername (info e) = authorLabel (joinUser d p).
Proof.
  intros He Ht. apply entries_inv in He. destruct He as [row [_ ->]].
  simpl info in *. unfold withReplyInfo in *.
  destruct (Js.truthy (replyToId row)) eqn:Htr; [|discriminate Ht].
  destruct (replyToId row) as [rid|] eqn:Hr; [|discriminate Htr].
  simpl entry. unfold selectOriginal in *.
  destruct (find (fun g => guestbook.id g =? rid) (guestbookTable d)) as [p|] eqn:Hf;
    [|discriminate Ht].
  apply find_some in Hf. destruct Hf as [Hp Hid]. apply String.eqb_eq in Hid.
  simpl in Ht. inversion Ht; subst.
  exists (guestbook.id p), p. repeat split; auto.
  now apply truthy_Some.
Qed.

Lemma NoDup_firstn {A : Type} (n : nat) (l : list A) : NoDup l -> NoDup (firstn n l).
Proof.
  intros H. rewrite <- (firstn_skipn n l) in H. now apply NoDup_app_remove_r in H.
Qed.

Lemma NoDup_skipn {A : Type} (n : nat) (l : list A) : NoDup l -> NoDup (skipn n l).
Proof.
  intros H. rewrite <- (firstn_skipn n l) in H. now apply NoDup_app_remove_l in H.
Qed.

(** X5: when the ids of the table are a key, no message appears twice on a
    page. *)
Theorem feed_page_ids_distinct (env : Env) (page limit : Z) (d : Db) :
  keyed d ->
  NoDup (map (fun e => id (entry (info e)))
             (entries (getGuestbookEntries env page limit d))).
Proof.
  intros Hk.
  rewrite <- (map_map (fun e => entry (info e)) id), entries_rows.
  unfold selectEntries. rewrite <- firstn_map, <- skipn_map.
  apply NoDup_firstn, NoDup_skipn.
  apply (Permutation_NoDup
           (Permutation_sym (Permutation_map id (orderByCreatedAtDesc_perm _)))).
  rewrite map_map. exact Hk.
Qed.

Lemma orderBy_newest_last (x : JoinedRow) (l : list JoinedRow) :
  Forall (fun y => (createdAt y < createdAt x)%Z) l ->
  orderByCreatedAtDesc (l ++ [x]) = x :: orderByCreatedAtDesc l.
Proof.
  unfold orderByCreatedAtDesc. rewrite fold_right_app. simpl.
  induction 1 as [|y l Hy _ IH]; simpl; [reflexivity|].
  rewrite IH. simpl.
  destruct (Z.leb_spec (createdAt x) (createdAt y)); [lia | reflexivity].
Qed.

Lemma joinUser_insert (dflt : Defaults) (v : InsertValues) (d : Db) (g : guestbook.row) :
  joinUser (insert dflt v d) g = joinUser d g.
Proof. reflexivity. Qed.

(** The first page of the feed right after a row newer than all others was
    inserted. *)
Lemma selectEntries_after_insert (dflt : Defaults) (v : InsertValues) (d : Db)
    (pageSize : Z) :
  (0 < pageSize)%Z ->
  Forall (fun g => (guestbook.createdAt g < now dflt)%Z) (guestbookTable d) ->
  selectEntries (insert dflt v d) pageSize ((1 - 1) * pageSize)
  = joinUser d (guestbook.mk (newId dflt) (v_message v) (now dflt)
                             (v_userId v) (v_replyToId v))
    :: firstn (Z.to_nat pageSize - 1)
         (orderByCreatedAtDesc (map (joinUser d) (guestbookTable d))).
Proof.
  intros Hl Hnew. unfold selectEntries.
  change (guestbookTable (insert dflt v d))
    with (guestbookTable d ++
            [guestbook.mk (newId dflt) (v_message v) (now dflt)
                          (v_userId v) (v_replyToId v)]).
  rewrite map_app. simpl map at 2.
  rewrite (map_ext _ _ (joinUser_insert dflt v d)), !joinUser_insert.
  rewrite orderBy_newest_last.
  - simpl Z.to_nat. simpl skipn.
    destruct (Z.to_nat pageSize) as [|n] eqn:E; [lia|].
    simpl. now rewrite Nat.sub_0_r.
  - rewrite Forall_map. simpl. exact Hnew.
Qed.

(** ** Posting, then reading *)

Lemma withReplyInfo_parent (d : Db) (row : JoinedRow) (p : guestbook.row) :
  keyed d -> In p (guestbookTable d) ->
  replyToId row = Some (guestbook.id p) -> guestbook.id p <> "" ->
  withReplyInfo d row
  = mkReplyInfo row (Some (guestbook.message p)) (authorLabel (joinUser d p)).
Proof.
  intros Hk Hp Hr Hne. unfold withReplyInfo.
  rewrite Hr. apply truthy_Some in Hne. rewrite Hne.
  unfold selectOriginal. rewrite (find_by_id _ p Hk Hp). reflexivity.
Qed.

Section PostThenRead.

Variable validateMessageContent : string -> ValidationOptions -> ValidationResult.

(** X6: after an accepted post whose timestamp is newer than every stored
    one, the first entry of page 1 is the new message (the store's id, the
    sanitized text, the poster's id) and [total] has grown by one. *)
Theorem accepted_post_tops_the_feed (env : Env) (dflt : Defaults) (s : session.t)
    (text : string) (replyTo : option string) (d : Db) (sanitized : string)
    (pageSize : Z) :
  validateMessageContent text (postOptions replyTo) = Valid sanitized ->
  Forall (fun g => (guestbook.createdAt g < now dflt)%Z) (guestbookTable d) ->
  (0 < pageSize)%Z ->
  exists e rest,
    entries (getGuestbookEntries env 1 pageSize
               (snd (createGuestbookEntry validateMessageContent dflt (Some s)
                       text replyTo d)))
      = e :: rest
    /\ id (entry (info e)) = newId dflt
    /\ message (entry (info e)) = sanitized
    /\ userId (entry (info e)) = session.id (session.user_ s)
    /\ createdAt (entry (info e)) = now dflt
    /\ total (pagination
                (getGuestbookEntries env 1 pageSize
                   (snd (createGuestbookEntry validateMessageContent dflt (Some s)
                           text replyTo d))))
       = (total (pagination (getGuestbookEntries env 1 pageSize d)) + 1)%Z.
Proof.
  intros Hv Hnew Hl. unfold createGuestbookEntry. rewrite Hv. simpl snd.
  unfold getGuestbookEntries.
  rewrite (selectEntries_after_insert _ _ _ _ Hl Hnew). simpl entries.
  eexists. eexists. split; [reflexivity|].
  simpl info. rewrite entry_withReplyInfo. simpl.
  repeat split. unfold totalCount, insert; simpl. rewrite length_app. simpl. lia.
Qed.

(** X7: a reply posted to a stored message is shown, as the first entry of
    page 1, with the text and the author label of that message. *)
Theorem posted_reply_shows_its_parent (env : Env) (dflt : Defaults) (s : session.t)
    (text : string) (p : guestbook.row) (d : Db) (sanitized : string)
    (pageSize : Z) :
  validateMessageContent text (postOptions (Some (guestbook.id p))) = Valid sanitized ->
  Forall (fun g => (guestbook.createdAt g < now dflt)%Z) (guestbookTable d) ->
  (0 < pageSize)%Z ->
  keyed d -> hasMessage d (newId dflt) = false ->
  In p (guestbookTable d) -> guestbook.id p <> "" ->
  exists e rest,
    entries (getGuestbookEntries env 1 pageSize
               (snd (createGuestbookEntry validateMessageContent dflt (Some s)
                       text (Some (guestbook.id p)) d)))
      = e :: rest
    /\ id (entry (info e)) = newId dflt
    /\ replyToId (entry (info e)) = Some (guestbook.id p)
    /\ replyToMessage (info e) = Some (guestbook.message p)
    /\ replyToUsername (info e) = authorLabel (joinUser d p).
Proof.
  intros Hv Hnew Hl Hk Hfresh Hp Hne.
  pose proof (post_keeps_keyed validateMessageContent dflt (Some s) text
                (Some (guestbook.id p)) d Hk Hfresh) as Hk'.
  revert Hk'. unfold createGuestbookEntry. rewrite Hv. simpl snd.
  assert (Htr : Js.truthy (Some (guestbook.id p)) = true) by now apply truthy_Some.
  unfold Js.or. rewrite Htr. intros Hk'.
  unfold getGuestbookEntries.
  rewrite (selectEntries_after_insert _ _ _ _ Hl Hnew). simpl entries.
  eexists. eexists. split; [reflexivity|]. simpl info.
  rewrite (withReplyInfo_parent _ _ p Hk'); simpl; auto.
  apply in_or_app. now left.
Qed.

End PostThenRead.

(** ** getUserPosts *)

Lemma userEntries_inv (env : Env) (uid : string) (page limit : Z) (d : Db)
    (e : userPosts.entry) :
  In e (userEntries (getUserPosts env uid page limit d)) ->
  exists g,
    In g (guestbookTable d) /\ guestbook.userId g = uid
    /\ e = userPostWithCreator (Js.optToLowerCase (CREATOR_USERNAME env))
             (joinUserPost d g).
Proof.
  unfold getUserPosts; simpl. rewrite in_map_iff. intros [row [<- Hrow]].
  unfold selectUserPosts in Hrow.
  apply In_firstn_in, In_skipn_in in Hrow.
  apply (Permutation_in _ (orderByDesc_perm _ _)) in Hrow.
  apply in_map_iff in Hrow. destruct Hrow as [g [<- Hg]].
  unfold postsOf in Hg. apply filter_In in Hg. destruct Hg as [Hg Hu].
  apply String.eqb_eq in Hu. exists g. auto.
Qed.

Lemma filter_length_le {A : Type} (f : A -> bool) (l : list A) :
  List.length (filter f l) <= List.length l.
Proof.
  induction l as [|x l IH]; simpl; [lia|]. destruct (f x); simpl; lia.
Qed.

(** X8: every entry of a user's page is a stored message of that user, and
    the page's [total] counts that user's messages only, so it never
    exceeds the feed's [total]. *)
Theorem user_posts_belong_to_the_user (env : Env) (uid : string) (page limit : Z)
    (d : Db) :
  Forall (fun e =>
            userPosts.userId (userPosts.fields e) = uid
            /\ exists g, In g (guestbookTable d)
                         /\ guestbook.userId g = uid
                         /\ userPosts.id (userPosts.fields e) = guestbook.id g
                         /\ userPosts.message (userPosts.fields e) = guestbook.message g)
         (userEntries (getUserPosts env uid page limit d))
  /\ total (userPagination (getUserPosts env uid page limit d))
     = Z.of_nat (List.length (postsOf d uid))
  /\ (total (userPagination (getUserPosts env uid page limit d))
      <= total (pagination (getGuestbookEntries env page limit d)))%Z.
Proof.
  split; [|split].
  - apply Forall_forall. intros e He.
    apply userEntries_inv in He. destruct He as [g [Hg [Hu ->]]].
    simpl. split; [exact Hu|]. exists g. auto.
  - reflexivity.
  - simpl. unfold totalCount, postsOf. apply inj_le, filter_length_le.
Qed.

(** X9: all entries of one user's page carry the same creator flag: the
    flag depends on the author alone. *)
Theorem user_posts_share_the_flag (env : Env) (uid : string) (page limit : Z)
    (d : Db) (e1 e2 : userPosts.entry) :
  In e1 (userEntries (getUserPosts env uid page limit d)) ->
  In e2 (userEntries (getUserPosts env uid page limit d)) ->
  userPosts.isCreator e1 = userPosts.isCreator e2.
Proof.
  intros H1 H2.
  apply userEntries_inv in H1. destruct H1 as [g1 [_ [U1 ->]]].
  apply userEntries_inv in H2. destruct H2 as [g2 [_ [U2 ->]]].
  unfold userPostWithCreator, userPostLabel, joinUserPost; simpl.
  now rewrite U1, U2.
Qed.

Lemma keyed_same_id (d : Db) (g h : guestbook.row) :
  keyed d -> In g (guestbookTable d) -> In h (guestbookTable d) ->
  guestbook.id g = guestbook.id h -> g = h.
Proof.
  unfold keyed. intros Hk Hg Hh E.
  pose proof (find_by_id _ g Hk Hg) as F1.
  pose proof (find_by_id _ h Hk Hh) as F2.
  rewrite E in F1. congruence.
Qed.

(** X10: the feed and a user's page agree on a message: when the ids of
    the table are a key, entries of the two with the same id carry the same
    text, author id and creator flag. *)
Theorem user_posts_agree_with_feed (env : Env) (uid : string)
    (page limit page' limit' : Z) (d : Db)
    (e : userPosts.entry) (f : EntryWithCreator) :
  keyed d ->
  In e (userEntries (getUserPosts env uid page limit d)) ->
  In f (entries (getGuestbookEntries env page' limit' d)) ->
  userPosts.id (userPosts.fields e) = id (entry (info f)) ->
  userPosts.message (userPosts.fields e) = message (entry (info f))
  /\ userPosts.userId (userPosts.fields e) = userId (entry (info f))
  /\ userPosts.isCreator e = isCreator f.
Proof.
  intros Hk He Hf Hid.
  apply userEntries_inv in He. destruct He as [g [Hg [_ ->]]].
  apply entries_inv in Hf. destruct Hf as [row [Hrow ->]].
  apply selectEntries_from_table in Hrow. destruct Hrow as [h [Hh ->]].
  simpl in Hid. rewrite entry_withReplyInfo in Hid. simpl in Hid.
  pose proof (keyed_same_id d g h Hk Hg Hh Hid) as ->.
  simpl info. rewrite isCreator_withCreator, entry_withReplyInfo.
  repeat split.
Qed.

(** ** The ignore list on the Home page *)

Lemma handle_ignore_cases (preferences : option Preferences) (u : string)
    (newIgnored : list string) :
  handleUsernameAction preferences u ignore = UpdateIgnoredUsers newIgnored ->
  (In u (currentIgnoredUsers preferences)
   /\ newIgnored = filter (fun x => negb (x =? u)) (currentIgnoredUsers preferences))
  \/ (~ In u (currentIgnoredUsers preferences)
      /\ newIgnored = currentIgnoredUsers preferences ++ [u]).
Proof.
  unfold handleUsernameAction. fold (currentIgnoredUsers preferences).
  destruct (Js.includes (currentIgnoredUsers preferences) u) eqn:E;
    intros H; inversion H; subst.
  - left. split; [now apply includes_In | reflexivity].
  - right. split; [|reflexivity]. intros Hin. apply includes_In in Hin. congruence.
Qed.

Lemma filter_neq_absent (u : string) (l : list string) :
  ~ In u l -> filter (fun x => negb (x =? u)) l = l.
Proof.
  induction l as [|x l IH]; intros Hn; simpl; [reflexivity|].
  destruct (String.eqb_spec x u) as [->|_].
  - exfalso. apply Hn. now left.
  - simpl. rewrite IH; [reflexivity|]. intros H. apply Hn. now right.
Qed.

(** X11: ignoring a label that is not in the list and then toggling it
    again gives back the list as it was. *)
Theorem ignore_toggle_twice_restores (preferences : option Preferences) (u : string)
    (newIgnored : list string) :
  ~ In u (currentIgnoredUsers preferences) ->
  handleUsernameAction preferences u ignore = UpdateIgnoredUsers newIgnored ->
  handleUsernameAction (Some (mkPreferences newIgnored)) u ignore
  = UpdateIgnoredUsers (currentIgnoredUsers preferences).
Proof.
  intros Hn H. apply handle_ignore_cases in H.
  destruct H as [[Hin _]|[_ ->]]; [contradiction|].
  unfold handleUsernameAction. simpl ignoredUsers.
  assert (E : Js.includes (currentIgnoredUsers preferences ++ [u]) u = true).
  { apply includes_In, in_or_app. right. now left. }
  rewrite E. f_equal. rewrite filter_app, filter_neq_absent by exact Hn.
  simpl. rewrite String.eqb_refl. simpl. apply app_nil_r.
Qed.

(** X12: the toggle keeps the ignore list free of duplicates. *)
Theorem ignore_toggle_keeps_NoDup (preferences : option Preferences) (u : string)
    (newIgnored : list string) :
  NoDup (currentIgnoredUsers preferences) ->
  handleUsernameAction preferences u ignore = UpdateIgnoredUsers newIgnored ->
  NoDup newIgnored.
Proof.
  intros Hd H. apply handle_ignore_cases in H.
  destruct H as [[_ ->]|[Hn ->]].
  - now apply NoDup_filter.
  - apply NoDup_app; [exact Hd | repeat constructor; intros [] |].
    intros a Ha [<-|[]]. contradiction.
Qed.

Lemma filter_twice {A : Type} (f g : A -> bool) (l : list A) :
  filter f (filter g l) = filter (fun x => (g x && f x)%bool) l.
Proof.
  induction l as [|x l IH]; simpl; [reflexivity|].
  destruct (g x); simpl; [destruct (f x)|]; now rewrite IH.
Qed.

Lemma includes_app_one (l : list string) (u x : string) :
  Js.includes (l ++ [u]) x = (Js.includes l x || (x =? u))%bool.
Proof.
  unfold Js.includes. rewrite existsb_app. simpl. now rewrite orb_false_r.
Qed.

(** X13: once a non-empty label that was not ignored is ignored, the
    entries shown are those shown before without the entries of that
    label; entries of other labels and entries without a label stay. *)
Theorem ignoring_hides_that_author_only (preferences : option Preferences)
    (u : string) (newIgnored : list string) (es : list EntryWithCreator) :
  u <> "" ->
  ~ In u (currentIgnoredUsers preferences) ->
  handleUsernameAction preferences u ignore = UpdateIgnoredUsers newIgnored ->
  filteredEntries false newIgnored es
  = filter (fun e => negb (homeUsername (entry (info e)) =? u))
           (filteredEntries false (currentIgnoredUsers preferences) es).
Proof.
  intros Hu Hn H. apply handle_ignore_cases in H.
  destruct H as [[Hin _]|[_ ->]]; [contradiction|].
  unfold filteredEntries. rewrite filter_twice. apply filter_ext. intros e.
  rewrite includes_app_one. simpl Js.truthy.
  destruct (String.eqb_spec (homeUsername (entry (info e))) "") as [E0|N0];
    destruct (String.eqb_spec (homeUsername (entry (info e))) u) as [Eu|Nu];
    destruct (Js.includes (currentIgnoredUsers preferences)
                (homeUsername (entry (info e))));
    try reflexivity; congruence.
Qed.

(** ** The page buttons *)

Lemma pageNumbers_In (tp p : Z) :
  In p (pageNumbers tp) <-> (1 <= p <= tp)%Z.
Proof.
  unfold pageNumbers. rewrite in_map_iff. split.
  - intros [i [<- Hi]]. apply in_seq in Hi. lia.
  - intros H. exists (Z.to_nat (p - 1)). split; [lia|]. apply in_seq. lia.
Qed.

Lemma seq_pages_sorted (start len : nat) :
  StronglySorted Z.lt (map (fun i => (Z.of_nat i + 1)%Z) (seq start len)).
Proof.
  revert start. induction len as [|len IH]; intros start; simpl; constructor.
  - apply IH.
  - rewrite Forall_map, Forall_forall. intros i Hi. apply in_seq in Hi. lia.
Qed.

Lemma StronglySorted_filter {A : Type} (R : A -> A -> Prop) (f : A -> bool)
    (l : list A) :
  StronglySorted R l -> StronglySorted R (filter f l).
Proof.
  induction 1 as [|x l Hl IH Hall]; simpl; [constructor|].
  destruct (f x); [|exact IH]. constructor; [exact IH|].
  rewrite Forall_forall in *. intros y Hy. apply filter_In in Hy. now apply Hall.
Qed.

Lemma visiblePages_sorted (tp cur : Z) : StronglySorted Z.lt (visiblePages tp cur).
Proof. apply StronglySorted_filter, seq_pages_sorted. Qed.

Lemma visiblePages_In (tp cur p : Z) :
  In p (visiblePages tp cur) <->
  (1 <= p <= tp)%Z /\ (p = 1 \/ p = tp \/ Z.abs (p - cur) <= 1)%Z.
Proof.
  unfold visiblePages. rewrite filter_In, pageNumbers_In.
  rewrite !orb_true_iff, !Z.eqb_eq, Z.leb_le. tauto.
Qed.

Lemma sorted_lt_NoDup (l : list Z) : StronglySorted Z.lt l -> NoDup l.
Proof.
  induction 1 as [|x l Hl IH Hall]; constructor; [|exact IH].
  intros Hin. rewrite Forall_forall in Hall. specialize (Hall x Hin). lia.
Qed.

(** The numbers kept by the filter, for a current page between 1 and
    [totalPages]. *)
Lemma visible_pages_shape (tp cur : Z) :
  (1 <= cur <= tp)%Z ->
  In 1%Z (visiblePages tp cur)
  /\ In tp (visiblePages tp cur)
  /\ In cur (visiblePages tp cur)
  /\ Forall (fun p => (1 <= p <= tp)%Z) (visiblePages tp cur)
  /\ StronglySorted Z.lt (visiblePages tp cur)
  /\ List.length (visiblePages tp cur) <= 5.
Proof.
  intros Hc. repeat split.
  - apply visiblePages_In. lia.
  - apply visiblePages_In. lia.
  - apply visiblePages_In. lia.
  - apply Forall_forall. intros p Hp. now apply visiblePages_In in Hp.
  - apply visiblePages_sorted.
  - change 5 with (List.length [1; tp; cur - 1; cur; cur + 1]%Z).
    apply NoDup_incl_length; [apply sorted_lt_NoDup, visiblePages_sorted|].
    intros p Hp. apply visiblePages_In in Hp. simpl. lia.
Qed.

(** X14: the page buttons are drawn only when there is more than one page.
    Then, with the current page between 1 and [totalPages], they include
    the first, the last and the current page, name only pages between 1
    and [totalPages], are in increasing order, and are at most five. With
    one page or none, or before the pagination is loaded, no button is
    drawn. *)
Theorem page_buttons_shape (p : Pagination) (cur : Z) :
  ((1 < totalPages p)%Z -> (1 <= cur <= totalPages p)%Z ->
   In 1%Z (pageButtons (Some p) cur)
   /\ In (totalPages p) (pageButtons (Some p) cur)
   /\ In cur (pageButtons (Some p) cur)
   /\ Forall (fun n => (1 <= n <= totalPages p)%Z) (pageButtons (Some p) cur)
   /\ StronglySorted Z.lt (pageButtons (Some p) cur)
   /\ 3 <= List.length (pageButtons (Some p) cur) + (if (cur =? 1)%Z then 1 else 0)
           + (if (cur =? totalPages p)%Z then 1 else 0)
   /\ List.length (pageButtons (Some p) cur) <= 5)
  /\ ((totalPages p <= 1)%Z -> pageButtons (Some p) cur = [])
  /\ pageButtons None cur = [].
Proof.
  unfold pageButtons. split; [|split; [|reflexivity]].
  - intros Hmany Hc. apply Z.ltb_lt in Hmany. rewrite Hmany.
    apply Z.ltb_lt in Hmany.
    destruct (visible_pages_shape (totalPages p) cur Hc)
      as [H1 [Ht [Hcur [Hall [Hs Hlen]]]]].
    repeat split; auto.
    pose proof (sorted_lt_NoDup _ Hs) as Hnd.
    destruct (Z.eqb_spec cur 1) as [E1|N1];
      destruct (Z.eqb_spec cur (totalPages p)) as [E2|N2]; try lia.
    + assert (Hin : incl [1; totalPages p]%Z (visiblePages (totalPages p) cur)).
      { intros n [<-|[<-|[]]]; assumption. }
      apply NoDup_incl_length in Hin; [simpl in Hin; lia|].
      repeat constructor; simpl; intuition lia.
    + assert (Hin : incl [1; totalPages p]%Z (visiblePages (totalPages p) cur)).
      { intros n [<-|[<-|[]]]; assumption. }
      apply NoDup_incl_length in Hin; [simpl in Hin; lia|].
      repeat constructor; simpl; intuition lia.
    + assert (Hin : incl [1; cur; totalPages p]%Z
                         (visiblePages (totalPages p) cur)).
      { intros n [<-|[<-|[<-|[]]]]; assumption. }
      apply NoDup_incl_length in Hin; [simpl in Hin; lia|].
      repeat constructor; simpl; intuition lia.
  - intros Hone. destruct (Z.ltb_spec 1 (totalPages p)); [lia | reflexivity].
Qed.

Lemma sorted_nth_lt (l : list Z) :
  StronglySorted Z.lt l ->
  forall i j a b, i < j -> nth_error l i = Some a -> nth_error l j = Some b ->
                  (a < b)%Z.
Proof.
  induction 1 as [|x l Hl IH Hall]; intros i j a b Hij Hi Hj.
  - destruct i; discriminate.
  - destruct j as [|j]; [lia|]. destruct i as [|i]; simpl in *.
    + inversion Hi; subst. rewrite Forall_forall in Hall.
      apply Hall. eapply nth_error_In. exact Hj.
    + apply (IH i j); auto. lia.
Qed.

(** X15: the dots are drawn before a button exactly when it is not the
    first button and the page just before its page has no button. *)
Theorem ellipsis_marks_a_gap (tp cur : Z) (index : nat) (p : Z) :
  nth_error (visiblePages tp cur) index = Some p ->
  (ellipsisBefore (visiblePages tp cur) index p = true <->
   0 < index /\ ~ In (p - 1)%Z (visiblePages tp cur)).
Proof.
  intros Hp. pose proof (visiblePages_sorted tp cur) as Hs.
  unfold ellipsisBefore. rewrite andb_true_iff, Nat.ltb_lt, negb_true_iff.
  split; intros [Hi H]; split; try exact Hi.
  - destruct (nth_error (visiblePages tp cur) (index - 1)) as [prev|] eqn:Hprev.
    + apply Z.eqb_neq in H. intros Hin.
      apply In_nth_error in Hin. destruct Hin as [j Hj].
      assert (Hprevlt : (prev < p)%Z).
      { apply (sorted_nth_lt _ Hs (index - 1) index); auto. lia. }
      destruct (Nat.lt_trichotomy j (index - 1)) as [Hlt|[->|Hgt]].
      * pose proof (sorted_nth_lt _ Hs j (index - 1) _ _ Hlt Hj Hprev). lia.
      * rewrite Hprev in Hj. inversion Hj. lia.
      * destruct (Nat.eq_dec j index) as [->|Hne].
        -- rewrite Hp in Hj. inversion Hj. lia.
        -- assert (index < j) as Hlt by lia.
           pose proof (sorted_nth_lt _ Hs index j _ _ Hlt Hp Hj). lia.
    + apply nth_error_None in Hprev.
      assert (index < List.length (visiblePages tp cur)).
      { apply nth_error_Some. congruence. }
      lia.
  - destruct (nth_error (visiblePages tp cur) (index - 1)) as [prev|] eqn:Hprev;
      [|reflexivity].
    apply Z.eqb_neq. intros ->. apply H. eapply nth_error_In. exact Hprev.
Qed.

(** ** The two creator tests *)

(** X16: with a creator label configured, an entry that the Home page's
    own test highlights (the label equal to the configured value as
    written) is also flagged by the feed. *)
Theorem home_highlight_implies_flag (env : Env) (page limit : Z) (d : Db)
    (c : string) (e : EntryWithCreator) :
  CREATOR_USERNAME env = Some c -> c <> "" ->
  In e (entries (getGuestbookEntries env page limit d)) ->
  homeIsCreator env (entry (info e)) = true ->
  isCreator e = true.
Proof.
  intros Hc Hne He Hh.
  apply entries_inv in He. destruct He as [row [_ ->]].
  simpl info in *. rewrite entry_withReplyInfo in Hh.
  rewrite isCreator_withCreator, entry_withReplyInfo, Hc.
  unfold homeIsCreator in Hh. rewrite Hc in Hh. apply strictEq_Some in Hh.
  unfold homeUsername, Js.or in Hh.
  assert (Hl : authorLabel row = Some c).
  { destruct (Js.truthy (authorLabel row)) eqn:Ht.
    - destruct (authorLabel row); [now subst | discriminate].
    - simpl in Hh. congruence. }
  rewrite Hl. simpl Js.optToLowerCase.
  assert (Htr : Js.truthy (Some (Js.toLowerCase c)) = true).
  { apply truthy_Some. now rewrite toLowerCase_empty. }
  rewrite Htr. simpl. apply String.eqb_refl.
Qed.

(** ** Email verification on the Home page *)

(** X17: [handleVerifyOtp] does nothing for a code that is blank after
    trimming; when it does call [verifyEmail], it passes the session's
    non-empty email and the trimmed, non-empty code; and it refreshes the
    router only after the call succeeded. *)
Theorem verify_sends_only_a_nonblank_code (session : option session.t)
    (outcome : CallResult) (st : OtpState) :
  (trim (otp st) = "" -> handleVerifyOtp session outcome st = (st, []))
  /\ (forall mail code,
        In (VerifyEmail mail code) (snd (handleVerifyOtp session outcome st)) ->
        code = trim (otp st) /\ code <> ""
        /\ sessionEmail session = Some mail /\ mail <> "")
  /\ (In RouterRefresh (snd (handleVerifyOtp session outcome st)) ->
      outcome = Resolved).
Proof.
  unfold handleVerifyOtp.
  destruct (Js.truthy (sessionEmail session)) eqn:Hm;
    destruct (Js.truthy (Some (trim (otp st)))) eqn:Hc; simpl.
  - apply truthy_Some in Hc.
    destruct (sessionEmail session) as [mail|] eqn:Hs; [|discriminate Hm].
    apply truthy_Some in Hm.
    split; [intros E; congruence|].
    destruct outcome as [|err]; simpl; split.
    + intros m c [H|[H|[]]]; inversion H; subst. auto.
    + reflexivity.
    + intros m c [H|[]]; inversion H; subst. auto.
    + intros [H|[]]. discriminate H.
  - repeat split; try contradiction.
  - repeat split; try contradiction.
  - repeat split; try contradiction.
Qed.

(** X18: the hint under "Please verify your email" follows the flow: when
    an unverified session arrives it tells of the code sent at signup;
    after a resend that succeeded it asks for the code; a failed resend or
    a failed verification leaves the hint and the typed code as they
    were. *)
Theorem verification_hint_flow (s : session.t) (err : Thrown) (st : OtpState) :
  (session.emailVerified (session.user_ s) = false ->
   verificationHint (onSessionChange (Some s) st)
   = "We sent a verification code to your email during signup")
  /\ (session.email (session.user_ s) <> "" ->
      verificationHint (fst (handleResendOtp (Some s) Resolved st))
      = "Enter the verification code from your email")
  /\ verificationHint (fst (handleResendOtp (Some s) (Rejected err) st))
     = verificationHint st
  /\ verificationHint (fst (handleVerifyOtp (Some s) (Rejected err) st))
     = verificationHint st
  /\ otp (fst (handleResendOtp (Some s) (Rejected err) st)) = otp st
  /\ otp (fst (handleVerifyOtp (Some s) (Rejected err) st)) = otp st.
Proof.
  repeat split.
  - intros Hv. unfold onSessionChange. rewrite Hv. reflexivity.
  - intros Hm. apply truthy_Some in Hm. unfold handleResendOtp. simpl sessionEmail.
    rewrite Hm. reflexivity.
  - unfold handleResendOtp. destruct (Js.truthy (sessionEmail (Some s))); reflexivity.
  - unfold handleVerifyOtp.
    destruct (negb (Js.truthy (sessionEmail (Some s)))
              || negb (Js.truthy (Some (trim (otp st)))))%bool; reflexivity.
  - unfold handleResendOtp. destruct (Js.truthy (sessionEmail (Some s))); reflexivity.
  - unfold handleVerifyOtp.
    destruct (negb (Js.truthy (sessionEmail (Some s)))
              || negb (Js.truthy (Some (trim (otp st)))))%bool; reflexivity.
Qed.

(** ** changePassword *)

Section ChangePasswordFacts.

Variable compare : string -> string -> bool.
Variable hash : string -> nat -> string.

(** X19: [changePassword] succeeds exactly when there is a session, the
    first account row of its user holds a non-empty password hash, and the
    given current password matches that hash; whenever it throws, the
    account table is left as it was. *)
Theorem change_password_succeeds_iff (now : Z) (session : option session.t)
    (currentPassword newPassword : string) (accounts : list account.row) :
  (fst (changePassword compare hash now session currentPassword newPassword accounts)
     = PasswordChanged
   <->
   exists s first stored,
     session = Some s
     /\ find (fun a => account.userId a =? session.id (session.user_ s)) accounts
        = Some first
     /\ account.password first = Some stored
     /\ stored <> ""
     /\ compare currentPassword stored = true)
  /\ (forall e,
        fst (changePassword compare hash now session currentPassword newPassword
               accounts) = PasswordThrew e ->
        snd (changePassword compare hash now session currentPassword newPassword
               accounts) = accounts).
Proof.
  unfold changePassword. destruct session as [s|].
  - destruct (find (fun a => account.userId a =? session.id (session.user_ s))
                accounts) as [first|] eqn:Hf.
    + destruct (Js.truthy (account.password first)) eqn:Ht; simpl.
      * destruct (account.password first) as [stored|] eqn:Hp; [|discriminate Ht].
        apply truthy_Some in Ht.
        destruct (compare currentPassword stored) eqn:Hc; simpl; split.
        -- split; [intros _|reflexivity]. exists s, first, stored. auto.
        -- discriminate.
        -- split; [discriminate|].
           intros [s' [f' [h' [Es [Ef [Eh [_ Ec]]]]]]].
           inversion Es; subst. congruence.
        -- reflexivity.
      * split; [|reflexivity]. split; [discriminate|].
        intros [s' [f' [h' [Es [Ef [Eh [Hne _]]]]]]].
        inversion Es; subst. rewrite Hf in Ef. inversion Ef; subst.
        rewrite Eh in Ht. apply truthy_Some in Hne. congruence.
    + simpl. split; [|reflexivity]. split; [discriminate|].
      intros [s' [f' [h' [Es [Ef _]]]]]. inversion Es; subst. congruence.
  - simpl. split; [|reflexivity]. split; [discriminate|].
    intros [s' [f' [h' [Es _]]]]. discriminate.
Qed.

Lemma updatePassword_nth (uid hashed : string) (now : Z)
    (accounts : list account.row) (i : nat) :
  nth_error (updatePassword uid hashed now accounts) i
  = option_map (fun a => if account.userId a =? uid
                         then account.mk (account.userId a) (Some hashed) now
                         else a)
               (nth_error accounts i).
Proof. unfold updatePassword. apply nth_error_map. Qed.

Lemma changePassword_result (now : Z) (s : session.t)
    (currentPassword newPassword : string) (accounts : list account.row) :
  snd (changePassword compare hash now (Some s) currentPassword newPassword accounts)
  = match fst (changePassword compare hash now (Some s) currentPassword newPassword
                 accounts) with
    | PasswordChanged =>
        updatePassword (session.id (session.user_ s)) (hash newPassword 12) now accounts
    | PasswordThrew _ => accounts
    end.
Proof.
  unfold changePassword.
  destruct (find _ accounts) as [first|]; [|reflexivity].
  destruct (Js.truthy (account.password first)); [|reflexivity]. simpl.
  destruct (compare currentPassword _); reflexivity.
Qed.

Lemma changePassword_changed_inv (now : Z) (s : session.t)
    (currentPassword newPassword : string) (accounts : list account.row) :
  fst (changePassword compare hash now (Some s) currentPassword newPassword accounts)
    = PasswordChanged ->
  exists first,
    find (fun a => account.userId a =? session.id (session.user_ s)) accounts
    = Some first.
Proof.
  unfold changePassword.
  destruct (find _ accounts) as [first|]; [|discriminate].
  intros _. now exists first.
Qed.

(** X20: whatever the outcome, [changePassword] keeps the number and the
    owners of the account rows and leaves the rows of other users as they
    were; when it succeeds, every row of the session's user, with or
    without a password before, holds the hash of the new password and the
    time of the change. *)
Theorem change_password_touches_own_rows_only (now : Z) (s : session.t)
    (currentPassword newPassword : string) (accounts : list account.row) :
  map account.userId
      (snd (changePassword compare hash now (Some s) currentPassword newPassword
              accounts))
    = map account.userId accounts
  /\ (forall i a,
        nth_error accounts i = Some a ->
        account.userId a <> session.id (session.user_ s) ->
        nth_error
          (snd (changePassword compare hash now (Some s) currentPassword
                  newPassword accounts)) i = Some a)
  /\ (fst (changePassword compare hash now (Some s) currentPassword newPassword
             accounts) = PasswordChanged ->
      forall a,
        In a (snd (changePassword compare hash now (Some s) currentPassword
                     newPassword accounts)) ->
        account.userId a = session.id (session.user_ s) ->
        account.password a = Some (hash newPassword 12)
        /\ account.updatedAt a = now).
Proof.
  rewrite changePassword_result.
  destruct (fst (changePassword compare hash now (Some s) currentPassword
                   newPassword accounts)) as [e|].
  - repeat split; auto; discriminate.
  - split; [|split].
    + unfold updatePassword. rewrite map_map. apply map_ext. intros a.
      destruct (account.userId a =? session.id (session.user_ s)); reflexivity.
    + intros i a Hi Hne. rewrite updatePassword_nth, Hi. simpl.
      destruct (String.eqb_spec (account.userId a) (session.id (session.user_ s)));
        [contradiction | reflexivity].
    + intros _ a Ha Hu. unfold updatePassword in Ha. apply in_map_iff in Ha.
      destruct Ha as [b [E Hb]].
      destruct (String.eqb_spec (account.userId b) (session.id (session.user_ s)))
        as [Eb|Nb]; subst a; simpl in *; auto.
      contradiction.
Qed.

Lemma find_updatePassword (uid hashed : string) (now : Z)
    (accounts : list account.row) :
  find (fun a => account.userId a =? uid) (updatePassword uid hashed now accounts)
  = option_map (fun a => account.mk (account.userId a) (Some hashed) now)
               (find (fun a => account.userId a =? uid) accounts).
Proof.
  induction accounts as [|a l IH]; simpl; [reflexivity|].
  destruct (account.userId a =? uid) eqn:E; simpl; rewrite E; [reflexivity|].
  exact IH.
Qed.

(** X21: after a successful change, for a [bcrypt] whose [compare] accepts
    a password against its own non-empty hash, the new password is
    accepted as the current one by the next change; and a password that
    does not match the new hash is refused with "Current password is
    incorrect". *)
Theorem changed_password_is_the_current_one (now later : Z) (s : session.t)
    (currentPassword newPassword nextPassword other : string)
    (accounts : list account.row) :
  compare newPassword (hash newPassword 12) = true ->
  hash newPassword 12 <> "" ->
  fst (changePassword compare hash now (Some s) currentPassword newPassword accounts)
    = PasswordChanged ->
  fst (changePassword compare hash later (Some s) newPassword nextPassword
         (snd (changePassword compare hash now (Some s) currentPassword newPassword
                 accounts)))
    = PasswordChanged
  /\ (compare other (hash newPassword 12) = false ->
      fst (changePassword compare hash later (Some s) other nextPassword
             (snd (changePassword compare hash now (Some s) currentPassword
                     newPassword accounts)))
        = PasswordThrew CurrentPasswordIncorrect).
Proof.
  intros Hrt Hne Hok. rewrite changePassword_result, Hok.
  apply changePassword_changed_inv in Hok. destruct Hok as [first Hf].
  apply String.eqb_neq in Hne.
  unfold changePassword. rewrite !find_updatePassword, Hf. simpl.
  rewrite Hne. simpl. rewrite Hrt. simpl. split; [reflexivity|].
  intros Hno. rewrite Hno. reflexivity.
Qed.

End ChangePasswordFacts.

(** ** What the posting action keeps of the table *)

Section ReachableTables.

Variable validateMessageContent : string -> ValidationOptions -> ValidationResult.

(** X22: in every table the posting action can produce (each new row given
    an unused id by the store), the ids are a key, no stored [replyToId] is
    the empty string, and every stored text is a sanitized text that the
    validator accepted for a root message or for a reply. *)
Theorem reachable_tables_hold_validated_rows (d : Db) :
  reachable validateMessageContent d ->
  keyed d
  /\ replyIdsTruthy d = true
  /\ Forall (fun g =>
               exists text replyTo,
                 validateMessageContent text (postOptions replyTo)
                 = Valid (guestbook.message g))
            (guestbookTable d).
Proof.
  induction 1 as [users | d dflt session text replyTo _ [IHk [IHt IHv]] Hfresh].
  - split; [constructor | split; [reflexivity | constructor]].
  - split; [now apply post_keeps_keyed|].
    split; [now apply post_keeps_replyIdsTruthy|].
    unfold createGuestbookEntry. destruct session as [s|]; [|exact IHv].
    destruct (validateMessageContent text (postOptions replyTo)) eqn:Hv;
      [|exact IHv].
    simpl. apply Forall_app. split; [exact IHv|].
    constructor; [|constructor]. simpl. now exists text, replyTo.
Qed.

End ReachableTables.

(** ** Further worked cases *)

Lemma timelineDb_distinct_times :
  NoDup (map guestbook.createdAt (guestbookTable timelineDb)).
Proof.
  simpl. repeat constructor; simpl; intuition discriminate.
Defined.

Lemma feed_pages_tile_the_table_example :
  Permutation
    (List.concat
       (map (fun p => map (fun e => entry (info e))
                          (entries (getGuestbookEntries (mkEnv None) p 2 timelineDb)))
            (pageNumbers
               (totalPages
                  (pagination (getGuestbookEntries (mkEnv None) 1 2 timelineDb))))))
    (map (joinUser timelineDb) (guestbookTable timelineDb))
  /\ StronglySorted (fun a b => (createdAt b < createdAt a)%Z)
       (List.concat
          (map (fun p => map (fun e => entry (info e))
                             (entries (getGuestbookEntries (mkEnv None) p 2 timelineDb)))
               (pageNumbers
                  (totalPages
                     (pagination (getGuestbookEntries (mkEnv None) 1 2 timelineDb)))))).
Proof.
  exact (feed_pages_tile_the_table (mkEnv None) 2 timelineDb
           timelineDb_distinct_times ltac:(lia)).
Defined.

Example feed_pages_sample_values :
  map (fun p => map (fun e => id (entry (info e)))
                    (entries (getGuestbookEntries (mkEnv None) p 2 timelineDb)))
      (pageNumbers (totalPages (pagination (getGuestbookEntries (mkEnv None) 1 2 timelineDb))))
  = [ ["t4"; "t2"]; ["t5"; "t3"]; ["t1"] ].
Proof. reflexivity. Qed.

Lemma feed_page_nonempty_iff_example :
  (entries (getGuestbookEntries (mkEnv None) 3 2 sampleDb) <> [] <->
   (3 <= totalPages (pagination (getGuestbookEntries (mkEnv None) 3 2 sampleDb)))%Z)
  /\ (hasNext (pagination (getGuestbookEntries (mkEnv None) 3 2 sampleDb)) = true <->
      entries (getGuestbookEntries (mkEnv None) (3 + 1) 2 sampleDb) <> []).
Proof.
  exact (feed_page_nonempty_iff (mkEnv None) 3 2 sampleDb ltac:(lia) ltac:(lia)).
Defined.

Lemma reply_text_is_a_stored_message_example :
  Forall
    (fun e =>
       forall text, replyToMessage (info e) = Some text ->
         exists rid p,
           replyToId (entry (info e)) = Some rid
           /\ rid <> ""
           /\ In p (guestbookTable sampleDb)
           /\ guestbook.id p = rid
           /\ guestbook.message p = text
           /\ replyToUsername (info e) = authorLabel (joinUser sampleDb p))
    (entries (getGuestbookEntries (mkEnv None) 1 3 sampleDb)).
Proof.
  apply Forall_forall. intros e He text Ht.
  exact (reply_text_is_a_stored_message (mkEnv None) 1 3 sampleDb e text He Ht).
Defined.

Lemma feed_page_ids_distinct_example :
  NoDup (map (fun e => id (entry (info e)))
             (entries (getGuestbookEntries (mkEnv None) 1 3 sampleDb))).
Proof.
  exact (feed_page_ids_distinct (mkEnv None) 1 3 sampleDb sampleDb_keyed).
Defined.

Lemma sampleDb_older_than_now :
  Forall (fun g => (guestbook.createdAt g < now storeDefaults)%Z)
         (guestbookTable sampleDb).
Proof. repeat constructor. Defined.

Lemma accepted_post_tops_the_feed_example :
  exists e rest,
    entries (getGuestbookEntries (mkEnv None) 1 3
               (snd (createGuestbookEntry exampleValidate storeDefaults (Some alice)
                       " hello " None sampleDb)))
      = e :: rest
    /\ id (entry (info e)) = newId storeDefaults
    /\ message (entry (info e)) = "hello"
    /\ userId (entry (info e)) = session.id (session.user_ alice)
    /\ createdAt (entry (info e)) = now storeDefaults
    /\ total (pagination
                (getGuestbookEntries (mkEnv None) 1 3
                   (snd (createGuestbookEntry exampleValidate storeDefaults
                           (Some alice) " hello " None sampleDb))))
       = (total (pagination (getGuestbookEntries (mkEnv None) 1 3 sampleDb)) + 1)%Z.
Proof.
  exact (accepted_post_tops_the_feed exampleValidate (mkEnv None) storeDefaults
           alice " hello " None sampleDb "hello" 3 eq_refl
           sampleDb_older_than_now ltac:(lia)).
Defined.

Lemma posted_reply_shows_its_parent_example :
  exists e rest,
    entries (getGuestbookEntries (mkEnv None) 1 3
               (snd (createGuestbookEntry exampleValidate storeDefaults (Some alice)
                       "thanks" (Some "m2") sampleDb)))
      = e :: rest
    /\ id (entry (info e)) = newId storeDefaults
    /\ replyToId (entry (info e)) = Some "m2"
    /\ replyToMessage (info e) = Some "second"
    /\ replyToUsername (info e)
       = authorLabel (joinUser sampleDb (guestbook.mk "m2" "second" 20 "u-bob" (Some "m1"))).
Proof.
  refine (posted_reply_shows_its_parent exampleValidate (mkEnv None) storeDefaults
            alice "thanks" (guestbook.mk "m2" "second" 20 "u-bob" (Some "m1"))
            sampleDb "thanks" 3 eq_refl sampleDb_older_than_now ltac:(lia)
            sampleDb_keyed eq_refl _ _).
  - right. left. reflexivity.
  - discriminate.
Defined.

Example user_posts_sample_values :
  map (fun e => (userPosts.id (userPosts.fields e), userPosts.isCreator e))
      (userEntries (getUserPosts (mkEnv (Some "alice")) "u-alice" 1 50 sampleDb))
    = [("m1", true); ("m5", true)]
  /\ userPagination (getUserPosts (mkEnv (Some "alice")) "u-alice" 1 50 sampleDb)
     = mkPagination 1 50 2 1 false false
  /\ userEntries (getUserPosts (mkEnv None) "u-zed" 1 50 sampleDb) = [].
Proof. repeat split. Qed.

Lemma user_posts_share_the_flag_example :
  Forall
    (fun e1 =>
       Forall (fun e2 => userPosts.isCreator e1 = userPosts.isCreator e2)
              (userEntries (getUserPosts (mkEnv (Some "alice")) "u-alice" 1 50 sampleDb)))
    (userEntries (getUserPosts (mkEnv (Some "alice")) "u-alice" 1 50 sampleDb)).
Proof.
  apply Forall_forall. intros e1 H1. apply Forall_forall. intros e2 H2.
  exact (user_posts_share_the_flag (mkEnv (Some "alice")) "u-alice" 1 50 sampleDb
           e1 e2 H1 H2).
Defined.

Lemma user_posts_agree_with_feed_example :
  Forall
    (fun e =>
       Forall
         (fun f =>
            userPosts.id (userPosts.fields e) = id (entry (info f)) ->
            userPosts.message (userPosts.fields e) = message (entry (info f))
            /\ userPosts.userId (userPosts.fields e) = userId (entry (info f))
            /\ userPosts.isCreator e = isCreator f)
         (entries (getGuestbookEntries (mkEnv (Some "alice")) 2 3 sampleDb)))
    (userEntries (getUserPosts (mkEnv (Some "alice")) "u-alice" 1 50 sampleDb)).
Proof.
  apply Forall_forall. intros e He. apply Forall_forall. intros f Hf Hid.
  exact (user_posts_agree_with_feed (mkEnv (Some "alice")) "u-alice" 1 50 2 3
           sampleDb e f sampleDb_keyed He Hf Hid).
Defined.

Lemma ignore_toggle_twice_restores_example :
  handleUsernameAction (Some (mkPreferences ["bob"; "alice"])) "alice" ignore
  = UpdateIgnoredUsers (currentIgnoredUsers (Some (mkPreferences ["bob"]))).
Proof.
  refine (ignore_toggle_twice_restores (Some (mkPreferences ["bob"])) "alice"
            ["bob"; "alice"] _ eq_refl).
  simpl. intros [H|[]]. discriminate H.
Defined.

Lemma ignore_toggle_keeps_NoDup_example : NoDup ["bob"; "alice"].
Proof.
  refine (ignore_toggle_keeps_NoDup (Some (mkPreferences ["bob"])) "alice"
            ["bob"; "alice"] _ eq_refl).
  simpl. constructor; [intros [] | constructor].
Defined.

Lemma ignoring_hides_that_author_only_example :
  filteredEntries false ["Alice"]
    (entries (getGuestbookEntries (mkEnv None) 1 5 sampleDb))
  = filter (fun e => negb (homeUsername (entry (info e)) =? "Alice"))
           (filteredEntries false (currentIgnoredUsers None)
              (entries (getGuestbookEntries (mkEnv None) 1 5 sampleDb))).
Proof.
  refine (ignoring_hides_that_author_only None "Alice" ["Alice"]
            (entries (getGuestbookEntries (mkEnv None) 1 5 sampleDb)) _ _ eq_refl).
  - discriminate.
  - intros [].
Defined.

Example filtered_entries_sample_values :
  map (fun e => id (entry (info e)))
      (filteredEntries false ["Alice"; ""]
         (entries (getGuestbookEntries (mkEnv None) 1 5 sampleDb)))
    = ["m3"; "m4"; "m2"]
  /\ map (fun e => id (entry (info e)))
         (filteredEntries true ["Alice"; ""]
            (entries (getGuestbookEntries (mkEnv None) 1 5 sampleDb)))
    = ["m3"; "m4"; "m2"; "m1"; "m5"]
  /\ total (pagination (getGuestbookEntries (mkEnv None) 1 5 sampleDb)) = 5%Z.
Proof. repeat split. Qed.

Lemma page_buttons_shape_example :
  In 1%Z (pageButtons (Some (mkPagination 5 50 500 10 true true)) 5)
  /\ In 10%Z (pageButtons (Some (mkPagination 5 50 500 10 true true)) 5)
  /\ In 5%Z (pageButtons (Some (mkPagination 5 50 500 10 true true)) 5)
  /\ Forall (fun n => (1 <= n <= 10)%Z)
            (pageButtons (Some (mkPagination 5 50 500 10 true true)) 5)
  /\ StronglySorted Z.lt (pageButtons (Some (mkPagination 5 50 500 10 true true)) 5)
  /\ 3 <= List.length (pageButtons (Some (mkPagination 5 50 500 10 true true)) 5)
          + (if (5 =? 1)%Z then 1 else 0) + (if (5 =? 10)%Z then 1 else 0)
  /\ List.length (pageButtons (Some (mkPagination 5 50 500 10 true true)) 5) <= 5.
Proof.
  exact (proj1 (page_buttons_shape (mkPagination 5 50 500 10 true true) 5)
           ltac:(simpl; lia) ltac:(simpl; lia)).
Defined.

Example page_buttons_sample_values :
  pageButtons (Some (mkPagination 5 50 500 10 true true)) 5 = [1; 4; 5; 6; 10]%Z
  /\ pageButtons (Some (mkPagination 1 50 120 3 true false)) 1 = [1; 2; 3]%Z
  /\ pageButtons (Some (mkPagination 1 50 7 1 false false)) 1 = []
  /\ pageButtons (Some (mkPagination 1 50 0 0 false false)) 1 = []
  /\ pageButtons None 1 = [].
Proof. repeat split. Qed.

Example visible_pages_sample_values :
  visiblePages 10 5 = [1; 4; 5; 6; 10]%Z
  /\ visiblePages 10 1 = [1; 2; 10]%Z
  /\ visiblePages 3 2 = [1; 2; 3]%Z
  /\ map (fun ip => ellipsisBefore (visiblePages 10 5) (fst ip) (snd ip))
         (combine (seq 0 5) (visiblePages 10 5))
     = [false; true; false; false; true].
Proof. repeat split. Qed.

Lemma ellipsis_marks_a_gap_example :
  ellipsisBefore (visiblePages 10 5) 1 4 = true <->
  0 < 1 /\ ~ In (4 - 1)%Z (visiblePages 10 5).
Proof. exact (ellipsis_marks_a_gap 10 5 1 4 eq_refl). Defined.

Lemma home_highlight_implies_flag_example :
  Forall
    (fun e =>
       homeIsCreator (mkEnv (Some "Alice")) (entry (info e)) = true ->
       isCreator e = true)
    (entries (getGuestbookEntries (mkEnv (Some "Alice")) 2 3 sampleDb)).
Proof.
  apply Forall_forall. intros e He Hh.
  refine (home_highlight_implies_flag (mkEnv (Some "Alice")) 2 3 sampleDb "Alice" e
            eq_refl _ He Hh).
  discriminate.
Defined.

Example change_password_sample_values :
  changePassword toyCompare toyHash 9 (Some alice) "old" "new" sampleAccounts
    = (PasswordChanged,
       [ account.mk "u-bob" (Some "hash:bobpw") 1;
         account.mk "u-alice" (Some "hash:new") 9;
         account.mk "u-alice" (Some "hash:new") 9 ])
  /\ changePassword toyCompare toyHash 9 (Some alice) "wrong" "new" sampleAccounts
    = (PasswordThrew CurrentPasswordIncorrect, sampleAccounts)
  /\ changePassword toyCompare toyHash 9 (Some mallory) "x" "new" sampleAccounts
    = (PasswordThrew NoPasswordFound, sampleAccounts)
  /\ changePassword toyCompare toyHash 9 None "old" "new" sampleAccounts
    = (PasswordThrew PasswordNotSignedIn, sampleAccounts).
Proof. repeat split. Qed.

Lemma changed_password_is_the_current_one_example :
  fst (changePassword toyCompare toyHash 20 (Some alice) "new" "next"
         (snd (changePassword toyCompare toyHash 9 (Some alice) "old" "new"
                 sampleAccounts)))
    = PasswordChanged
  /\ (toyCompare "old" (toyHash "new" 12) = false ->
      fst (changePassword toyCompare toyHash 20 (Some alice) "old" "next"
             (snd (changePassword toyCompare toyHash 9 (Some alice) "old" "new"
                     sampleAccounts)))
        = PasswordThrew CurrentPasswordIncorrect).
Proof.
  refine (changed_password_is_the_current_one toyCompare toyHash 9 20 alice
            "old" "new" "next" "old" sampleAccounts eq_refl _ eq_refl).
  discriminate.
Defined.

Lemma reachable_tables_hold_validated_rows_example :
  keyed (snd (createGuestbookEntry exampleValidate storeDefaults (Some alice)
                " hello " (Some "") (mkDb [] [])))
  /\ replyIdsTruthy
       (snd (createGuestbookEntry exampleValidate storeDefaults (Some alice)
               " hello " (Some "") (mkDb [] []))) = true
  /\ Forall (fun g =>
               exists text replyTo,
                 exampleValidate text (postOptions replyTo)
                 = Valid (guestbook.message g))
            (guestbookTable
               (snd (createGuestbookEntry exampleValidate storeDefaults (Some alice)
                       " hello " (Some "") (mkDb [] [])))).
Proof.
  apply (reachable_tables_hold_validated_rows exampleValidate).
  apply reachable_post; [apply reachable_init | reflexivity].
Defined.

(** ** The sign-in and sign-up form *)

Section AuthFormFacts.

Variable validateUsername : string -> UsernameValidation.

(** X23: [handleSubmit] reports success to its caller only after a sign-in
    or a code verification that went through, never right after a sign-up;
    a sign-up is sent only with a username the validator accepted, passed
    sanitized as both name and username, and moves the form to the
    verification step only when it went through; the form is never left
    loading. *)
Theorem submit_reports_success_only_when_verified (outcome : CallResult)
    (st : authForm.state) :
  (In OnSuccess (snd (handleSubmit validateUsername outcome st)) ->
   outcome = Resolved
   /\ ((authForm.step st = stepAuth /\ authForm.isLogin st = true)
       \/ authForm.step st = stepVerify))
  /\ (forall mail pw name uname,
        In (SignUp mail pw name uname)
           (snd (handleSubmit validateUsername outcome st)) ->
        validateUsername (authForm.username st) = UsernameValid uname
        /\ name = uname
        /\ ~ In OnSuccess (snd (handleSubmit validateUsername outcome st)))
  /\ (authForm.step (fst (handleSubmit validateUsername outcome st))
        <> authForm.step st ->
      outcome = Resolved
      /\ authForm.isLogin st = false
      /\ authForm.step (fst (handleSubmit validateUsername outcome st)) = stepVerify
      /\ authForm.pendingVerification
           (fst (handleSubmit validateUsername outcome st)) = true)
  /\ authForm.isLoading (fst (handleSubmit validateUsername outcome st)) = false.
Proof.
  unfold handleSubmit.
  destruct (authForm.step st) eqn:Hs.
  - destruct (authForm.isLogin st) eqn:Hl.
    + destruct outcome as [|err]; simpl; rewrite ?Hs.
      * split; [intros _; split; [reflexivity | left; split; reflexivity]|].
        split; [intros mail pw name uname [H|[H|[]]]; discriminate H|].
        split; [intros H; contradiction H; reflexivity | reflexivity].
      * split; [intros [H|[]]; discriminate H|].
        split; [intros mail pw name uname [H|[]]; discriminate H|].
        split; [intros H; contradiction H; reflexivity | reflexivity].
    + destruct (validateUsername (authForm.username st)) as [sanitized|error] eqn:Hv;
        destruct outcome as [|err]; simpl; rewrite ?Hs.
      * split; [intros [H|[]]; discriminate H|].
        split.
        { intros mail pw name uname [H|[]]. inversion H; subst.
          split; [reflexivity|]. split; [reflexivity|].
          intros [K|[]]. discriminate K. }
        split; [intros _; repeat split; reflexivity | reflexivity].
      * split; [intros [H|[]]; discriminate H|].
        split.
        { intros mail pw name uname [H|[]]. inversion H; subst.
          split; [reflexivity|]. split; [reflexivity|].
          intros [K|[]]. discriminate K. }
        split; [intros H; contradiction H; reflexivity | reflexivity].
      * split; [intros []|]. split; [intros mail pw name uname []|].
        split; [intros H; contradiction H; reflexivity | reflexivity].
      * split; [intros []|]. split; [intros mail pw name uname []|].
        split; [intros H; contradiction H; reflexivity | reflexivity].
  - destruct outcome as [|err]; simpl; rewrite ?Hs.
    + split; [intros _; split; [reflexivity | right; reflexivity]|].
      split; [intros mail pw name uname [H|[H|[]]]; discriminate H|].
      split; [intros H; contradiction H; reflexivity | reflexivity].
    + split; [intros [H|[]]; discriminate H|].
      split; [intros mail pw name uname [H|[]]; discriminate H|].
      split; [intros H; contradiction H; reflexivity | reflexivity].
Qed.

End AuthFormFacts.

Example submit_sample_values :
  snd (handleSubmit toyValidateUsername Resolved signupForm)
    = [SignUp "dan@example.com" "pw" "dan" "dan"]
  /\ authForm.step (fst (handleSubmit toyValidateUsername Resolved signupForm))
     = stepVerify
  /\ authForm.step (fst (handleSubmit toyValidateUsername (Rejected ThrownOther)
                           signupForm)) = stepAuth
  /\ authForm.error (fst (handleSubmit toyValidateUsername (Rejected ThrownOther)
                            signupForm)) = "An error occurred".
Proof. repeat split. Qed.
